(** * Crypto.Util.py3compat: the Python 3 definitions, over an object store

    The module selects its definitions once, on [sys.version_info]; on a
    Python 3 interpreter the [else] branch (lines 90-123) is the one that
    runs, together with the version-independent helpers [_copy_bytes],
    [_is_immutable] and [_is_mutable].  This file embeds those definitions,
    and after them, apart and without a store, the Python 2 branch.

    Python values that are immutable and compared by value ([None], [int],
    [str], and the temporary list of a list display) are Rocq values.  The
    binary containers ([bytes], [bytearray], [memoryview]) are objects in a
    store, addressed by location, so that identity ("the same object") and
    aliasing (a view over a [bytearray]) are part of the model.  Every
    function of the module is a computation in a state-and-exception monad
    over that store. *)

From Stdlib Require Import ZArith NArith Lia.
From Stdlib.Strings Require Import Byte.
From stdpp Require Import base option list gmap.

Local Open Scope Z_scope.
Set Warnings "-register-all".

(** ** Data model *)

Abbreviation loc := positive.

(** Objects with identity.  A [memoryview] is a window [off, off+len) onto
    the storage of its base object; only one-dimensional views of unsigned
    bytes are modelled (the views [memoryview(b)] makes of a [bytes] or a
    [bytearray], and their slices). *)
Inductive obj : Type :=
  | OBytes (bs : list byte)
  | OByteArray (bs : list byte)
  | OMemoryView (base : loc) (readonly : bool) (off len : nat).

(** Values.  A code point is a natural number; a [str] is the list of its
    code points. *)
Inductive value : Type :=
  | VNone
  | VInt (n : Z)
  | VStr (s : list N)
  | VList (xs : list value)
  | VObj (l : loc).

Abbreviation heap := (gmap positive obj).

Inductive pytype : Type :=
  | Tnone | Tint | Tstr | Tlist | Tbytes | Tbytearray | Tmemoryview | Tobject.

Global Instance pytype_eq_dec : EqDecision pytype.
Proof. solve_decision. Defined.

(** The exceptions the builtins used here can raise.  The spec's
    EncodingError is [UnicodeEncodeError] and its RangeError is the
    [ValueError] of [bytes(iterable)]. *)
Inductive exn : Type :=
  | TypeError | ValueError | IndexError | AttributeError | UnicodeEncodeError.

Inductive result (A : Type) : Type :=
  | Ok (a : A)
  | Raise (e : exn).
Arguments Ok {A} a.
Arguments Raise {A} e.

(** ** The monad: a store is threaded through, an exception stops the
    computation and keeps the store reached so far. *)

Definition M (A : Type) : Type := heap → result A * heap.

Global Instance M_ret : MRet M := λ A a h, (Ok a, h).

Global Instance M_bind : MBind M := λ A B f m h,
  match m h with
  | (Ok a, h') => f a h'
  | (Raise e, h') => (Raise e, h')
  end.

Definition raise {A : Type} (e : exn) : M A := λ h, (Raise e, h).

(** A new object gets a location that is not in use. *)
Definition alloc (o : obj) : M value := λ h,
  let l := fresh (dom h) in (Ok (VObj l), <[l := o]> h).

Global Instance result_ret : MRet result := λ A a, Ok a.

Global Instance result_bind : MBind result := λ A B f r,
  match r with
  | Ok a => f a
  | Raise e => Raise e
  end.

Global Instance result_fmap : FMap result := λ A B f r,
  match r with
  | Ok a => Ok (f a)
  | Raise e => Raise e
  end.

Definition lift {A : Type} (r : result A) : M A := λ h, (r, h).

(** ** Builtins *)

(** [type(v)]; a location that holds no object stands for an object of some
    other class. *)
Definition type_of (h : heap) (v : value) : pytype :=
  match v with
  | VNone => Tnone
  | VInt _ => Tint
  | VStr _ => Tstr
  | VList _ => Tlist
  | VObj l =>
      match h !! l with
      | Some (OBytes _) => Tbytes
      | Some (OByteArray _) => Tbytearray
      | Some (OMemoryView _ _ _ _) => Tmemoryview
      | None => Tobject
      end
  end.

(** [isinstance(v, t)] for the four classes the module tests; none of them
    has a subclass among the modelled values. *)
Definition isinstance (v : value) (t : pytype) : M bool := λ h,
  (Ok (bool_decide (type_of h v = t)), h).

(** The bytes stored in a [bytes] or a [bytearray]. *)
Definition storage (h : heap) (l : loc) : option (list byte) :=
  match h !! l with
  | Some (OBytes bs) | Some (OByteArray bs) => Some bs
  | _ => None
  end.

(** Slice indices, as [PySlice_AdjustIndices] computes them for step 1: a
    negative index counts from the end, and the outcome is clamped to
    [0, len]. *)
Definition adjust_index (len i : Z) : Z :=
  if i <? 0 then (if i + len <? 0 then 0 else i + len)
  else if len <=? i then len
  else i.

Definition slice_bounds (len : Z) (start stop : option Z) : Z * Z :=
  (match start with None => 0 | Some i => adjust_index len i end,
   match stop with None => len | Some i => adjust_index len i end).

Definition slice_list {A : Type} (start stop : option Z) (xs : list A) : list A :=
  let '(lo, hi) := slice_bounds (Z.of_nat (length xs)) start stop in
  take (Z.to_nat (hi - lo)) (drop (Z.to_nat lo) xs).

(** A slice bound is [None] or an integer. *)
Definition as_slice_index (v : value) : result (option Z) :=
  match v with
  | VNone => Ok None
  | VInt n => Ok (Some n)
  | _ => Raise TypeError
  end.

(** [seq[start:stop]].  A slice of a container is a new container of the
    same class; a slice of a view is a new view of the same storage.  A view
    whose base holds no storage behaves as a released view. *)
Definition getslice (seq start stop : value) : M value :=
  match seq with
  | VNone | VInt _ => raise TypeError
  | VStr s =>
      lo ← lift (as_slice_index start);
      hi ← lift (as_slice_index stop);
      mret (VStr (slice_list lo hi s))
  | VList xs =>
      lo ← lift (as_slice_index start);
      hi ← lift (as_slice_index stop);
      mret (VList (slice_list lo hi xs))
  | VObj l => λ h,
      match h !! l with
      | None => raise TypeError h
      | Some (OBytes bs) =>
          (lo ← lift (as_slice_index start);
           hi ← lift (as_slice_index stop);
           alloc (OBytes (slice_list lo hi bs))) h
      | Some (OByteArray bs) =>
          (lo ← lift (as_slice_index start);
           hi ← lift (as_slice_index stop);
           alloc (OByteArray (slice_list lo hi bs))) h
      | Some (OMemoryView base ro off n) =>
          match storage h base with
          | None => raise ValueError h
          | Some _ =>
              (lo ← lift (as_slice_index start);
               hi ← lift (as_slice_index stop);
               let '(i, j) := slice_bounds (Z.of_nat n) lo hi in
               alloc (OMemoryView base ro (off + Z.to_nat i) (Z.to_nat (j - i)))) h
          end
      end
  end.

(** [seq[i]] for an integer [i]: an element of a binary container is an
    integer, an element of a [str] is a one-character [str]. *)
Definition index_list {A : Type} (i : Z) (xs : list A) : result A :=
  let n := Z.of_nat (length xs) in
  let j := if i <? 0 then i + n else i in
  if j <? 0 then Raise IndexError
  else match xs !! Z.to_nat j with
       | Some x => Ok x
       | None => Raise IndexError
       end.

Definition int_of_byte (x : byte) : value := VInt (Z.of_N (Byte.to_N x)).

Definition getitem (seq : value) (i : Z) : M value :=
  match seq with
  | VNone | VInt _ => raise TypeError
  | VStr s => lift ((λ c, VStr [c]) <$> index_list i s)
  | VList xs => lift (index_list i xs)
  | VObj l => λ h,
      match h !! l with
      | None => raise TypeError h
      | Some (OBytes bs) | Some (OByteArray bs) =>
          lift (int_of_byte <$> index_list i bs) h
      | Some (OMemoryView base _ off n) =>
          match storage h base with
          | None => raise ValueError h
          | Some bs => lift (int_of_byte <$> index_list i (take n (drop off bs))) h
          end
      end
  end.

(** One item of [bytes(iterable)]: an integer in [range(256)]. *)
Definition as_byte (v : value) : result byte :=
  match v with
  | VInt n =>
      if n <? 0 then Raise ValueError
      else match Byte.of_N (Z.to_N n) with
           | Some x => Ok x
           | None => Raise ValueError
           end
  | _ => Raise TypeError
  end.

(** [bytes(x)] with one argument: a copy of a binary container, the bytes of
    an iterable of integers, or [n] zero bytes for an integer [n]. *)
Definition py_bytes (x : value) : M value :=
  match x with
  | VNone | VStr _ => raise TypeError
  | VInt n =>
      if n <? 0 then raise ValueError
      else alloc (OBytes (replicate (Z.to_nat n) x00))
  | VList xs => bs ← lift (mapM as_byte xs); alloc (OBytes bs)
  | VObj l => λ h,
      match h !! l with
      | None => raise TypeError h
      | Some (OBytes bs) | Some (OByteArray bs) => alloc (OBytes bs) h
      | Some (OMemoryView base _ off n) =>
          match storage h base with
          | None => raise ValueError h
          | Some bs => alloc (OBytes (take n (drop off bs))) h
          end
      end
  end.

(** [bytearray(x)] for a binary container: a new, writable container with a
    copy of the bytes. *)
Definition py_bytearray (x : value) : M value :=
  match x with
  | VNone | VStr _ => raise TypeError
  | VInt n =>
      if n <? 0 then raise ValueError
      else alloc (OByteArray (replicate (Z.to_nat n) x00))
  | VList xs => bs ← lift (mapM as_byte xs); alloc (OByteArray bs)
  | VObj l => λ h,
      match h !! l with
      | None => raise TypeError h
      | Some (OBytes bs) | Some (OByteArray bs) => alloc (OByteArray bs) h
      | Some (OMemoryView base _ off n) =>
          match storage h base with
          | None => raise ValueError h
          | Some bs => alloc (OByteArray (take n (drop off bs))) h
          end
      end
  end.

(** [m[i] = v] on a [bytearray]: the one in-place update used to observe
    aliasing.  [bytes] does not support item assignment. *)
Definition setitem (seq : value) (i : Z) (v : value) : M unit :=
  match seq with
  | VObj l => λ h,
      match h !! l with
      | Some (OByteArray bs) =>
          let n := Z.of_nat (length bs) in
          let j := if i <? 0 then i + n else i in
          if (j <? 0) || (n <=? j) then raise IndexError h
          else match as_byte v with
               | Ok x => (Ok (), <[l := OByteArray (<[Z.to_nat j := x]> bs)]> h)
               | Raise e => raise e h
               end
      | Some (OMemoryView base ro off n) =>
          match h !! base with
          | Some (OByteArray bs) =>
              if ro then raise TypeError h
              else
                let j := if i <? 0 then i + Z.of_nat n else i in
                if (j <? 0) || (Z.of_nat n <=? j) then raise IndexError h
                else match as_byte v with
                     | Ok x =>
                         (Ok (), <[base :=
                                    OByteArray (<[(off + Z.to_nat j)%nat := x]> bs)]> h)
                     | Raise e => raise e h
                     end
          | Some (OBytes _) => raise TypeError h
          | _ => raise ValueError h
          end
      | _ => raise TypeError h
      end
  | _ => raise TypeError
  end.

(** [s.encode("latin-1")]: a method of [str] only.  Each code point up to
    255 becomes the byte of that value; any other code point is an error. *)
Definition latin1_encode (s : list N) : option (list byte) := mapM Byte.of_N s.

Definition encode_latin1 (s : value) : M value :=
  match s with
  | VStr cps =>
      match latin1_encode cps with
      | Some bs => alloc (OBytes bs)
      | None => raise UnicodeEncodeError
      end
  | _ => raise AttributeError
  end.

(** [bs.decode("latin-1")]: a method of [bytes] and [bytearray]. *)
Definition latin1_decode (bs : list byte) : list N := Byte.to_N <$> bs.

Definition decode_latin1 (bs : value) : M value :=
  match bs with
  | VObj l => λ h,
      match h !! l with
      | Some (OBytes x) | Some (OByteArray x) => (Ok (VStr (latin1_decode x)), h)
      | _ => raise AttributeError h
      end
  | _ => raise AttributeError
  end.

(** [view.tobytes()] and [view.readonly]: attributes of [memoryview]. *)
Definition memoryview_tobytes (v : value) : M value :=
  match v with
  | VObj l => λ h,
      match h !! l with
      | Some (OMemoryView base _ off n) =>
          match storage h base with
          | Some bs => alloc (OBytes (take n (drop off bs))) h
          | None => raise ValueError h
          end
      | _ => raise AttributeError h
      end
  | _ => raise AttributeError
  end.

Definition memoryview_readonly (v : value) : M bool :=
  match v with
  | VObj l => λ h,
      match h !! l with
      | Some (OMemoryView _ ro _ _) => (Ok ro, h)
      | _ => raise AttributeError h
      end
  | _ => raise AttributeError
  end.

(** [bytes(s, "latin-1")]: the two-argument form takes a [str] only. *)
Definition py_bytes_latin1 (s : value) : M value :=
  match s with
  | VStr cps =>
      match latin1_encode cps with
      | Some bs => alloc (OBytes bs)
      | None => raise UnicodeEncodeError
      end
  | _ => raise TypeError
  end.

(** ** The module *)

Module py3compat.

(** [def b(s): return s.encode("latin-1")] *)
Definition b (s : value) : M value := encode_latin1 s.

(** [def bchr(s): return bytes([s])] *)
Definition bchr (s : value) : M value := py_bytes (VList [s]).

(** [def bstr(s)]: [bytes(s, "latin-1")] for a [str], [bytes(s)] for
    anything else. *)
Definition bstr (s : value) : M value :=
  is_str ← isinstance s Tstr;
  if is_str : bool then py_bytes_latin1 s else py_bytes s.

(** [def bord(s): return s] *)
Definition bord (s : value) : M value := mret s.

(** [def tobytes(s)]: a [bytes] is returned as it is, a [str] is encoded,
    anything else goes through [bytes([s])]. *)
Definition tobytes (s : value) : M value :=
  is_bytes ← isinstance s Tbytes;
  if is_bytes : bool then mret s
  else
    is_str ← isinstance s Tstr;
    if is_str : bool then encode_latin1 s
    else py_bytes (VList [s]).

(** [def tostr(bs): return bs.decode("latin-1")] *)
Definition tostr (bs : value) : M value := decode_latin1 bs.

(** [def byte_string(s): return isinstance(s, bytes)] *)
Definition byte_string (s : value) : M bool := isinstance s Tbytes.

(** [def _copy_bytes(start, end, seq)] *)
Definition _copy_bytes (start end_ seq : value) : M value :=
  is_view ← isinstance seq Tmemoryview;
  if is_view : bool then
    v ← getslice seq start end_; memoryview_tobytes v
  else
    is_bytearray ← isinstance seq Tbytearray;
    if is_bytearray : bool then
      v ← getslice seq start end_; py_bytes v
    else getslice seq start end_.

(** [def _is_immutable(data)]; [and] evaluates [data.readonly] only for a
    [memoryview]. *)
Definition _is_immutable (data : value) : M bool :=
  is_bytes ← byte_string data;
  if is_bytes : bool then mret true
  else
    is_view ← isinstance data Tmemoryview;
    ro ← (if is_view : bool then memoryview_readonly data else mret false);
    if ro : bool then mret true else mret false.

(** [def _is_mutable(data): return not _is_immutable(data)] *)
Definition _is_mutable (data : value) : M bool :=
  r ← _is_immutable data; mret (negb r).

End py3compat.

Import py3compat.

(** ** The Python 2 definitions

    On a Python 2 interpreter the first branch (lines 64-80) is the one
    that runs.  There [str] is the binary string and [unicode] the text;
    both are immutable and compared by value, so these definitions need no
    store.  The values modelled are [None], integers, [str], [unicode] and
    lists; [bstr], which is [str(s)], is left out.  [chr] takes a C long:
    [long_max] is the largest one of the platform. *)

Module py2compat.

Inductive pyvalue : Type :=
  | PNone
  | PInt (n : Z)
  | PStr (bs : list byte)
  | PUnicode (s : list N)
  | PList (xs : list pyvalue).

Inductive pyexn : Type :=
  | PTypeError | PValueError | POverflowError
  | PUnicodeEncodeError | PUnicodeDecodeError.

Inductive res (A : Type) : Type :=
  | Done (a : A)
  | Throw (e : pyexn).
Arguments Done {A} a.
Arguments Throw {A} e.

(** [chr(i)]: the one-character string of an integer in [range(256)]. *)
Definition py_chr (long_max : Z) (v : pyvalue) : res pyvalue :=
  match v with
  | PInt n =>
      if (n <? - long_max - 1) || (long_max <? n) then Throw POverflowError
      else if n <? 0 then Throw PValueError
      else match Byte.of_N (Z.to_N n) with
           | Some x => Done (PStr [x])
           | None => Throw PValueError
           end
  | _ => Throw PTypeError
  end.

(** [ord(c)]: the code of a string or text of length one. *)
Definition py_ord (v : pyvalue) : res pyvalue :=
  match v with
  | PStr [x] => Done (PInt (Z.of_N (Byte.to_N x)))
  | PUnicode [c] => Done (PInt (Z.of_N c))
  | _ => Throw PTypeError
  end.

(** [u.encode("latin-1")], reached for a [unicode] only. *)
Definition py_encode_latin1 (v : pyvalue) : res pyvalue :=
  match v with
  | PUnicode u =>
      match latin1_encode u with
      | Some bs => Done (PStr bs)
      | None => Throw PUnicodeEncodeError
      end
  | _ => Throw PTypeError
  end.

(** The items [''.join(s)] iterates over. *)
Definition py_items (s : pyvalue) : res (list pyvalue) :=
  match s with
  | PStr bs => Done ((λ x, PStr [x]) <$> bs)
  | PUnicode u => Done ((λ c, PUnicode [c]) <$> u)
  | PList xs => Done xs
  | PNone | PInt _ => Throw PTypeError
  end.

(** The first pass of [str.join]: the concatenation of the items if all of
    them are [str], else the first item that is not. *)
Fixpoint scan_str (xs : list pyvalue) : list byte + pyvalue :=
  match xs with
  | [] => inl []
  | PStr bs :: r =>
      match scan_str r with
      | inl rest => inl (bs ++ rest)
      | inr v => inr v
      end
  | v :: _ => inr v
  end.

(** A [str] item of a [unicode] join is decoded as ASCII. *)
Definition ascii_decode (bs : list byte) : option (list N) :=
  if forallb (λ x, (Byte.to_N x <? 128)%N) bs then Some (Byte.to_N <$> bs) else None.

(** [unicode.join], to which [str.join] hands over when an item is a
    [unicode]: items are taken in order. *)
Fixpoint join_unicode (xs : list pyvalue) : res (list N) :=
  match xs with
  | [] => Done []
  | PUnicode u :: r =>
      match join_unicode r with
      | Done rest => Done (u ++ rest)
      | Throw e => Throw e
      end
  | PStr bs :: r =>
      match ascii_decode bs with
      | None => Throw PUnicodeDecodeError
      | Some u =>
          match join_unicode r with
          | Done rest => Done (u ++ rest)
          | Throw e => Throw e
          end
      end
  | _ :: _ => Throw PTypeError
  end.

(** [''.join(s)] *)
Definition py_join (s : pyvalue) : res pyvalue :=
  match py_items s with
  | Throw e => Throw e
  | Done xs =>
      match scan_str xs with
      | inl bs => Done (PStr bs)
      | inr (PUnicode _) =>
          match join_unicode xs with
          | Done u => Done (PUnicode u)
          | Throw e => Throw e
          end
      | inr _ => Throw PTypeError
      end
  end.

(** [def b(s): return s] *)
Definition b (s : pyvalue) : res pyvalue := Done s.

(** [def bchr(s): return chr(s)] *)
Definition bchr (long_max : Z) (s : pyvalue) : res pyvalue := py_chr long_max s.

(** [def bord(s): return ord(s)] *)
Definition bord (s : pyvalue) : res pyvalue := py_ord s.

(** [def tobytes(s)]: a [unicode] is encoded, anything else is joined. *)
Definition tobytes (s : pyvalue) : res pyvalue :=
  match s with
  | PUnicode _ => py_encode_latin1 s
  | _ => py_join s
  end.

(** [def tostr(bs): return bs] *)
Definition tostr (bs : pyvalue) : res pyvalue := Done bs.

(** [def byte_string(s): return isinstance(s, str)] *)
Definition byte_string (s : pyvalue) : bool :=
  match s with
  | PStr _ => true
  | _ => false
  end.

End py2compat.

(** ** Running a computation *)

Definition outcome {A : Type} (r : result A * heap) : result A := r.1.
Definition final {A : Type} (r : result A * heap) : heap := r.2.

(** The bytes seen through a binary container or a view. *)
Definition contents (h : heap) (l : loc) : option (list byte) :=
  match h !! l with
  | Some (OBytes bs) | Some (OByteArray bs) => Some bs
  | Some (OMemoryView base _ off n) =>
      match storage h base with
      | Some bs =>
          if decide (off + n ≤ length bs)%nat then Some (take n (drop off bs)) else None
      | None => None
      end
  | None => None
  end.

(** A slice bound as the caller passes it: [None] or an integer. *)
Definition bound (o : option Z) : value :=
  match o with
  | None => VNone
  | Some i => VInt i
  end.

(** The bytes of the [bytes] object a computation returned, if it returned
    one. *)
Definition returned_bytes (p : result value * heap) : option (list byte) :=
  match p with
  | (Ok (VObj r), h') =>
      match h' !! r with
      | Some (OBytes x) => Some x
      | _ => None
      end
  | _ => None
  end.

(** ** What the claims are stated with *)

(** The position a slice bound stands for in a sequence of length [n]: a
    negative bound is taken from the end, and the outcome is brought into
    [0, n]. *)
Definition resolve_bound (n i : Z) : Z :=
  Z.min n (Z.max 0 (if decide (i < 0) then n + i else i)).

(** What a text-to-binary conversion [conv] has to do on the text [s]. *)
Definition latin1_conversion (conv : value → M value) (h : heap) (s : list N) : Prop :=
  ((∃ e, outcome (conv (VStr s) h) = Raise e) ↔ Exists (λ c, (255 < c)%N) s)
  ∧ (∀ e, outcome (conv (VStr s) h) = Raise e → e = UnicodeEncodeError)
  ∧ (Forall (λ c, (c ≤ 255)%N) s →
     ∃ (r : loc) (h' : heap) (bs : list byte),
       conv (VStr s) h = (Ok (VObj r), h')
       ∧ h' !! r = Some (OBytes bs)
       ∧ Forall2 (λ c x, Byte.to_N x = c) s bs).

(** Sample stores and values. *)
Definition bytes_10_40 : list byte := [x10; x20; x30; x40].
Definition h_sample : heap :=
  <[4%positive := OMemoryView 1 true 0 4]>
  (<[3%positive := OMemoryView 2 false 0 4]>
    (<[2%positive := OByteArray bytes_10_40]>
       (<[1%positive := OBytes bytes_10_40]> ∅))).
Definition str_ABC : list N := [65; 66; 67]%N.

(** ** Stepping through the monad *)

Lemma bind_ok {A B : Type} (m : M A) (f : A → M B) h a h' :
  m h = (Ok a, h') → (m ≫= f) h = f a h'.
Proof. intros E. unfold mbind, M_bind. by rewrite E. Qed.

Lemma bind_raise {A B : Type} (m : M A) (f : A → M B) h e h' :
  m h = (Raise e, h') → (m ≫= f) h = (Raise e, h').
Proof. intros E. unfold mbind, M_bind. by rewrite E. Qed.

Lemma alloc_fresh (h : heap) : h !! fresh (dom h) = None.
Proof. apply (not_elem_of_dom (D := gset positive)), is_fresh. Qed.

Lemma alloc_run o (h : heap) :
  alloc o h = (Ok (VObj (fresh (dom h))), <[fresh (dom h) := o]> h).
Proof. reflexivity. Qed.

Lemma isinstance_run v t (h : heap) :
  isinstance v t h = (Ok (bool_decide (type_of h v = t)), h).
Proof. reflexivity. Qed.

(** What the builtins do on a container that is in the store. *)

Lemma getslice_bytes (h : heap) l bs (i j : Z) :
  h !! l = Some (OBytes bs) →
  getslice (VObj l) (VInt i) (VInt j) h
  = alloc (OBytes (slice_list (Some i) (Some j) bs)) h.
Proof. intros E. unfold getslice. by rewrite E. Qed.

Lemma getslice_bytearray (h : heap) l bs (i j : Z) :
  h !! l = Some (OByteArray bs) →
  getslice (VObj l) (VInt i) (VInt j) h
  = alloc (OByteArray (slice_list (Some i) (Some j) bs)) h.
Proof. intros E. unfold getslice. by rewrite E. Qed.

Lemma getslice_memoryview (h : heap) l base ro off n bs (i j : Z) :
  h !! l = Some (OMemoryView base ro off n) →
  storage h base = Some bs →
  getslice (VObj l) (VInt i) (VInt j) h
  = alloc (OMemoryView base ro
             (off + Z.to_nat (adjust_index (Z.of_nat n) i))
             (Z.to_nat (adjust_index (Z.of_nat n) j - adjust_index (Z.of_nat n) i))) h.
Proof. intros E Eb. unfold getslice. by rewrite E, Eb. Qed.

Lemma storage_alloc (h : heap) o base bs :
  storage h base = Some bs → storage (<[fresh (dom h) := o]> h) base = Some bs.
Proof.
  unfold storage. intros E.
  destruct (decide (fresh (dom h) = base)) as [<- | Hne].
  - by rewrite alloc_fresh in E.
  - by rewrite lookup_insert_ne.
Qed.

Lemma lookup_alloc (h : heap) o l x :
  h !! l = Some x → <[fresh (dom h) := o]> h !! l = Some x.
Proof.
  intros E. destruct (decide (fresh (dom h) = l)) as [<- | Hne].
  - by rewrite alloc_fresh in E.
  - by rewrite lookup_insert_ne.
Qed.

(** ** Slices *)


Lemma adjust_index_resolve n i : 0 ≤ n → adjust_index n i = resolve_bound n i.
Proof.
  intros Hn. unfold adjust_index, resolve_bound.
  destruct (Z.ltb_spec i 0); [rewrite decide_True by done | rewrite decide_False by lia].
  - destruct (Z.ltb_spec (i + n) 0); lia.
  - destruct (Z.leb_spec n i); lia.
Qed.

Lemma adjust_index_range n i : 0 ≤ n → 0 ≤ adjust_index n i ≤ n.
Proof. intros Hn. rewrite adjust_index_resolve by done. unfold resolve_bound. lia. Qed.

Lemma slice_list_resolve {A : Type} (xs : list A) (i j : Z) :
  slice_list (Some i) (Some j) xs
  = take (Z.to_nat (resolve_bound (Z.of_nat (length xs)) j
                    - resolve_bound (Z.of_nat (length xs)) i))
      (drop (Z.to_nat (resolve_bound (Z.of_nat (length xs)) i)) xs).
Proof.
  unfold slice_list, slice_bounds. by rewrite !adjust_index_resolve by lia.
Qed.

Lemma slice_list_in_range {A : Type} (xs : list A) (i j : Z) :
  0 ≤ i ≤ j → j ≤ Z.of_nat (length xs) →
  slice_list (Some i) (Some j) xs = take (Z.to_nat (j - i)) (drop (Z.to_nat i) xs).
Proof.
  intros Hij Hj. rewrite slice_list_resolve. unfold resolve_bound.
  rewrite !decide_False by lia. do 2 f_equal; lia.
Qed.

Lemma slice_list_clamped {A : Type} (xs : list A) (i j : Z) :
  0 ≤ i → Z.of_nat (length xs) ≤ j →
  slice_list (Some i) (Some j) xs = drop (Z.to_nat i) xs.
Proof.
  intros Hi Hj. rewrite slice_list_resolve. unfold resolve_bound.
  rewrite !decide_False by lia.
  destruct (Z.le_gt_cases (Z.of_nat (length xs)) i) as [Hge | Hlt].
  - rewrite !drop_ge by lia. by destruct (Z.to_nat _).
  - rewrite take_ge; [f_equal; lia |]. rewrite length_drop. lia.
Qed.

Lemma slice_list_reordered {A : Type} (xs : list A) (i j : Z) :
  resolve_bound (Z.of_nat (length xs)) j ≤ resolve_bound (Z.of_nat (length xs)) i →
  slice_list (Some i) (Some j) xs = [].
Proof.
  intros Hji. rewrite slice_list_resolve.
  replace (Z.to_nat _) with 0%nat by lia. done.
Qed.

Lemma slice_list_window {A : Type} (xs : list A) (off n : nat) (i j : Z) :
  (off + n ≤ length xs)%nat →
  take (Z.to_nat (adjust_index (Z.of_nat n) j - adjust_index (Z.of_nat n) i))
    (drop (off + Z.to_nat (adjust_index (Z.of_nat n) i)) xs)
  = slice_list (Some i) (Some j) (take n (drop off xs)).
Proof.
  intros Hwin. unfold slice_list, slice_bounds.
  assert (length (take n (drop off xs)) = n) as ->
    by (rewrite length_take, length_drop; lia).
  pose proof (adjust_index_range (Z.of_nat n) i ltac:(lia)) as Hi.
  pose proof (adjust_index_range (Z.of_nat n) j ltac:(lia)) as Hj.
  set (lo := adjust_index (Z.of_nat n) i) in *.
  set (hi := adjust_index (Z.of_nat n) j) in *.
  rewrite <- drop_drop.
  rewrite skipn_firstn_comm, take_take.
  f_equal. lia.
Qed.

(** ** [_copy_bytes], branch by branch *)

Lemma type_of_bytes (h : heap) l bs :
  h !! l = Some (OBytes bs) → type_of h (VObj l) = Tbytes.
Proof. intros E. unfold type_of. by rewrite E. Qed.

Lemma type_of_bytearray (h : heap) l bs :
  h !! l = Some (OByteArray bs) → type_of h (VObj l) = Tbytearray.
Proof. intros E. unfold type_of. by rewrite E. Qed.

Lemma type_of_memoryview (h : heap) l base ro off n :
  h !! l = Some (OMemoryView base ro off n) → type_of h (VObj l) = Tmemoryview.
Proof. intros E. unfold type_of. by rewrite E. Qed.

Lemma copy_bytes_of_bytes (h : heap) l bs (i j : Z) :
  h !! l = Some (OBytes bs) →
  _copy_bytes (VInt i) (VInt j) (VObj l) h
  = alloc (OBytes (slice_list (Some i) (Some j) bs)) h.
Proof.
  intros E. unfold _copy_bytes.
  erewrite bind_ok by apply isinstance_run.
  rewrite (type_of_bytes _ _ _ E), bool_decide_eq_false_2 by done.
  erewrite bind_ok by apply isinstance_run.
  rewrite (type_of_bytes _ _ _ E), bool_decide_eq_false_2 by done.
  by apply getslice_bytes.
Qed.

Lemma copy_bytes_of_bytearray (h : heap) l bs (i j : Z) :
  h !! l = Some (OByteArray bs) →
  let sl := slice_list (Some i) (Some j) bs in
  let h1 := <[fresh (dom h) := OByteArray sl]> h in
  _copy_bytes (VInt i) (VInt j) (VObj l) h = alloc (OBytes sl) h1.
Proof.
  intros E sl h1. unfold _copy_bytes.
  erewrite bind_ok by apply isinstance_run.
  rewrite (type_of_bytearray _ _ _ E), bool_decide_eq_false_2 by done.
  erewrite bind_ok by apply isinstance_run.
  rewrite (type_of_bytearray _ _ _ E), bool_decide_eq_true_2 by done.
  erewrite bind_ok by (rewrite (getslice_bytearray _ _ _ _ _ E); apply alloc_run).
  unfold py_bytes. fold sl h1. unfold h1 at 1. by rewrite lookup_insert_eq.
Qed.

Lemma copy_bytes_of_memoryview (h : heap) l base ro off n bs (i j : Z) :
  h !! l = Some (OMemoryView base ro off n) →
  storage h base = Some bs →
  (off + n ≤ length bs)%nat →
  let lo := adjust_index (Z.of_nat n) i in
  let hi := adjust_index (Z.of_nat n) j in
  let h1 := <[fresh (dom h) := OMemoryView base ro (off + Z.to_nat lo) (Z.to_nat (hi - lo))]> h in
  _copy_bytes (VInt i) (VInt j) (VObj l) h
  = alloc (OBytes (slice_list (Some i) (Some j) (take n (drop off bs)))) h1.
Proof.
  intros E Eb Hwin lo hi h1. unfold _copy_bytes.
  erewrite bind_ok by apply isinstance_run.
  rewrite (type_of_memoryview _ _ _ _ _ _ E), bool_decide_eq_true_2 by done.
  erewrite bind_ok by (rewrite (getslice_memoryview _ _ _ _ _ _ _ _ _ E Eb); apply alloc_run).
  unfold memoryview_tobytes. fold lo hi h1. unfold h1 at 1.
  rewrite lookup_insert_eq. fold h1.
  unfold h1 at 1. rewrite (storage_alloc _ _ _ _ Eb). fold h1.
  unfold lo, hi. by rewrite slice_list_window.
Qed.

(** [_copy_bytes] on any binary container or view, for any two integer
    bounds: a new [bytes] object holding the slice, and no object that was
    in the store is changed. *)
Lemma copy_bytes_run (h : heap) l bs (i j : Z) :
  contents h l = Some bs →
  ∃ (r : loc) (h' : heap),
    _copy_bytes (VInt i) (VInt j) (VObj l) h = (Ok (VObj r), h')
    ∧ h !! r = None
    ∧ h' !! r = Some (OBytes (slice_list (Some i) (Some j) bs))
    ∧ ∀ k o, h !! k = Some o → h' !! k = Some o.
Proof.
  unfold contents. intros Ec.
  destruct (h !! l) as [[x | x | base ro off n] |] eqn:E; simplify_eq.
  - rewrite (copy_bytes_of_bytes _ _ _ _ _ E), alloc_run.
    eexists _, _. split; [done |]. split; [apply alloc_fresh |].
    split; [by rewrite lookup_insert_eq |]. intros k o. apply lookup_alloc.
  - rewrite (copy_bytes_of_bytearray _ _ _ _ _ E), alloc_run.
    set (h1 := <[fresh (dom h) := _]> h).
    assert (∀ k o, h !! k = Some o → h1 !! k = Some o) as Hsub
      by (intros k o; apply lookup_alloc).
    eexists _, _. split; [done |]. split.
    { destruct (h !! fresh (dom h1)) eqn:Ef; [| done].
      apply Hsub in Ef. by rewrite alloc_fresh in Ef. }
    split; [by rewrite lookup_insert_eq |].
    intros k o Hk. by apply lookup_alloc, Hsub.
  - destruct (storage h base) as [bsb |] eqn:Eb; [| done].
    case_decide as Hwin; simplify_eq.
    rewrite (copy_bytes_of_memoryview _ _ _ _ _ _ _ _ _ E Eb Hwin), alloc_run.
    set (h1 := <[fresh (dom h) := _]> h).
    assert (∀ k o, h !! k = Some o → h1 !! k = Some o) as Hsub
      by (intros k o; apply lookup_alloc).
    eexists _, _. split; [done |]. split.
    { destruct (h !! fresh (dom h1)) eqn:Ef; [| done].
      apply Hsub in Ef. by rewrite alloc_fresh in Ef. }
    split; [by rewrite lookup_insert_eq |].
    intros k o Hk. by apply lookup_alloc, Hsub.
Qed.

(** * The claims *)

(** ** Classification of a textual value *)

(** C1, as stated, fails on the string "ABC": [_is_mutable] does not answer
    [False] for it. *)
Lemma is_mutable_str_counterexample :
  ¬ (outcome (_is_immutable (VStr str_ABC) ∅) = Ok false
     ∧ outcome (_is_mutable (VStr str_ABC) ∅) = Ok false).
Proof. intros [_ H]. vm_compute in H. discriminate H. Qed.

(** C1 (amended): for every textual value [t], in every store,
    [_is_immutable(t)] returns [False] and [_is_mutable(t)], being its
    negation, returns [True]; neither call raises or changes the store. *)
Theorem classification_of_str (h : heap) (t : list N) :
  _is_immutable (VStr t) h = (Ok false, h)
  ∧ _is_mutable (VStr t) h = (Ok true, h).
Proof. split; reflexivity. Qed.

(** ** [tobytes] on a sequence of byte-like elements *)

(** C2: the claim asks for the concatenation of the elements' bytes; the
    code wraps the whole argument in a one-element list and hands that to
    [bytes], which raises [TypeError] for a [bytearray], for a writable
    view of one, and for a list of small integers such as [[1, 2]]. *)
Theorem tobytes_sequence_raises :
  tobytes (VObj 2) h_sample = (Raise TypeError, h_sample)
  ∧ tobytes (VObj 3) h_sample = (Raise TypeError, h_sample)
  ∧ tobytes (VList [VInt 1; VInt 2]) ∅ = (Raise TypeError, ∅)
  ∧ contents h_sample 2 = Some bytes_10_40.
Proof. repeat split; vm_compute; reflexivity. Qed.

(** ** [_copy_bytes] and the bounds of the slice *)

(** C3, as stated, fails for a negative bound: with bounds -2 and 4 on the
    four bytes 10 20 30 40 the result is not empty. *)
Lemma copy_bytes_negative_bound_counterexample :
  ¬ ∃ (r : loc) (h' : heap),
      _copy_bytes (VInt (-2)) (VInt 4) (VObj 1) h_sample = (Ok (VObj r), h')
      ∧ h' !! r = Some (OBytes []).
Proof.
  intros (r & h' & E & Hr). vm_compute in E.
  injection E as <- <-. vm_compute in Hr. discriminate Hr.
Qed.

(** C3 (amended): for every [bytes], [bytearray] or [memoryview] in the
    store and every pair of integer bounds, [_copy_bytes] does not raise and
    returns a [bytes] object holding the elements from position
    [resolve_bound n start] up to, not including, [resolve_bound n end],
    where a negative bound counts from the end of the container and every
    bound is clamped to [0, n].  So bounds within the container give the
    half-open range [start, end), an end beyond the length is clamped, and
    bounds that resolve in the wrong order give the empty buffer. *)
Theorem copy_bytes_slice_semantics (h : heap) (l : loc) (bs : list byte)
    (start end_ : Z) :
  contents h l = Some bs →
  ∃ (r : loc) (h' : heap) (res : list byte),
    _copy_bytes (VInt start) (VInt end_) (VObj l) h = (Ok (VObj r), h')
    ∧ h' !! r = Some (OBytes res)
    ∧ res = take (Z.to_nat (resolve_bound (Z.of_nat (length bs)) end_
                            - resolve_bound (Z.of_nat (length bs)) start))
              (drop (Z.to_nat (resolve_bound (Z.of_nat (length bs)) start)) bs)
    ∧ (0 ≤ start ≤ end_ → end_ ≤ Z.of_nat (length bs) →
       res = take (Z.to_nat (end_ - start)) (drop (Z.to_nat start) bs))
    ∧ (0 ≤ start → Z.of_nat (length bs) ≤ end_ →
       res = drop (Z.to_nat start) bs)
    ∧ (resolve_bound (Z.of_nat (length bs)) end_
         ≤ resolve_bound (Z.of_nat (length bs)) start →
       res = []).
Proof.
  intros Hc.
  destruct (copy_bytes_run h l bs start end_ Hc) as (r & h' & E & _ & Hr & _).
  exists r, h', (slice_list (Some start) (Some end_) bs).
  split; [done |]. split; [done |].
  split; [apply slice_list_resolve |].
  split; [intros; by apply slice_list_in_range |].
  split; [intros; by apply slice_list_clamped |].
  apply slice_list_reordered.
Qed.

Lemma copy_bytes_slice_semantics_witness :
  ∃ (r : loc) (h' : heap) (res : list byte),
    _copy_bytes (VInt 2) (VInt 100) (VObj 2) h_sample = (Ok (VObj r), h')
    ∧ h' !! r = Some (OBytes res)
    ∧ res = [x30; x40].
Proof.
  destruct (copy_bytes_slice_semantics h_sample 2 bytes_10_40 2 100)
    as (r & h' & res & E & Hr & _ & _ & Hclamp & _).
  { vm_compute. reflexivity. }
  exists r, h', res. split; [exact E |]. split; [exact Hr |].
  apply Hclamp; vm_compute; discriminate.
Defined.

(** The two scenarios of the spec, on a [bytes], a [bytearray] and a view. *)
Example copy_bytes_scenarios :
  Forall (λ l,
    (∃ r h', _copy_bytes (VInt 0) (VInt 2) (VObj l) h_sample = (Ok (VObj r), h')
             ∧ h' !! r = Some (OBytes [x10; x20]))
    ∧ (∃ r h', _copy_bytes (VInt 2) (VInt 100) (VObj l) h_sample = (Ok (VObj r), h')
               ∧ h' !! r = Some (OBytes [x30; x40])))
    [1; 2; 3]%positive.
Proof.
  repeat constructor; eexists _, _; (split; [vm_compute; reflexivity |]);
    vm_compute; reflexivity.
Qed.

(** ** The Latin-1 transform *)

Lemma latin1_encode_None (s : list N) :
  latin1_encode s = None ↔ Exists (λ c, (255 < c)%N) s.
Proof.
  unfold latin1_encode. rewrite mapM_None.
  apply Exists_proper; [| done]. intros c. apply Byte.of_N_None_iff.
Qed.

Lemma latin1_encode_Some (s : list N) (bs : list byte) :
  latin1_encode s = Some bs ↔ Forall2 (λ c x, Byte.to_N x = c) s bs.
Proof.
  unfold latin1_encode. rewrite mapM_Some.
  split; intros H; (eapply Forall2_impl; [exact H |]);
    intros c x; apply Byte.to_of_N_iff.
Qed.

Lemma latin1_encode_total (s : list N) :
  Forall (λ c, (c ≤ 255)%N) s → ∃ bs, latin1_encode s = Some bs.
Proof.
  intros Hs. destruct (latin1_encode s) as [bs |] eqn:E; [by exists bs |].
  apply latin1_encode_None in E. exfalso.
  induction E as [c s Hc | c s _ IH]; inversion Hs; subst; [lia | by apply IH].
Qed.

Lemma latin1_decode_encode (s : list N) (bs : list byte) :
  latin1_encode s = Some bs → latin1_decode bs = s.
Proof.
  rewrite latin1_encode_Some. unfold latin1_decode.
  induction 1 as [| c x s bs Hx _ IH]; [done |]. rewrite fmap_cons. by f_equal.
Qed.

Lemma b_run (h : heap) (s : list N) :
  b (VStr s) h
  = match latin1_encode s with
    | Some bs => alloc (OBytes bs) h
    | None => (Raise UnicodeEncodeError, h)
    end.
Proof. unfold b, encode_latin1. by destruct (latin1_encode s). Qed.

Lemma tobytes_str (h : heap) (s : list N) : tobytes (VStr s) h = b (VStr s) h.
Proof. reflexivity. Qed.


Lemma b_latin1_conversion (h : heap) (s : list N) : latin1_conversion b h s.
Proof.
  unfold latin1_conversion. rewrite b_run.
  destruct (latin1_encode s) as [bs |] eqn:E.
  - rewrite alloc_run. unfold outcome; simpl. split; [| split].
    + split; [by intros [e He] |]. intros Hex.
      apply latin1_encode_None in Hex. congruence.
    + by intros e He.
    + intros _. eexists _, _, bs. split; [done |].
      split; [by rewrite lookup_insert_eq | by apply latin1_encode_Some].
  - unfold outcome; simpl. split; [| split].
    + split; [intros _; by apply latin1_encode_None | by eexists].
    + intros e He. by injection He as <-.
    + intros Hs. destruct (latin1_encode_total s Hs) as [bs Hbs]. congruence.
Qed.

(** C4: for every textual value [s], in every store, [b(s)] and
    [tobytes(s)] raise exactly when [s] has a code point above 255, the
    exception is then [UnicodeEncodeError], and otherwise they return a
    [bytes] object in which each code point N of [s] has become the byte of
    value N. *)
Theorem text_to_binary_latin1 (h : heap) (s : list N) :
  latin1_conversion b h s ∧ latin1_conversion tobytes h s.
Proof.
  split; [apply b_latin1_conversion |].
  unfold latin1_conversion. rewrite tobytes_str. apply b_latin1_conversion.
Qed.

Lemma text_to_binary_latin1_witness :
  (∃ (r : loc) (h' : heap) (bs : list byte),
     tobytes (VStr str_ABC) ∅ = (Ok (VObj r), h')
     ∧ h' !! r = Some (OBytes bs)
     ∧ Forall2 (λ c x, Byte.to_N x = c) str_ABC bs)
  ∧ (∃ e, outcome (b (VStr [65; 256]%N) ∅) = Raise e).
Proof.
  split.
  - apply (text_to_binary_latin1 ∅ str_ABC). repeat constructor; by vm_compute.
  - apply (text_to_binary_latin1 ∅ [65; 256]%N).
    apply Exists_cons_tl, Exists_cons_hd. by vm_compute.
Defined.

(** ** Single bytes *)

Lemma as_byte_in_range (c : Z) :
  0 ≤ c ≤ 255 → ∃ x : byte, as_byte (VInt c) = Ok x ∧ Z.of_N (Byte.to_N x) = c.
Proof.
  intros Hc. unfold as_byte.
  destruct (Z.ltb_spec c 0); [lia |].
  destruct (Byte.of_N (Z.to_N c)) as [x |] eqn:E.
  - exists x. split; [done |]. apply Byte.to_of_N in E. lia.
  - apply Byte.of_N_None_iff in E. lia.
Qed.

Lemma as_byte_out_of_range (c : Z) :
  c < 0 ∨ 255 < c → as_byte (VInt c) = Raise ValueError.
Proof.
  intros Hc. unfold as_byte.
  destruct (Z.ltb_spec c 0); [done |].
  destruct (Byte.of_N (Z.to_N c)) as [x |] eqn:E; [| done].
  apply Byte.to_of_N in E. pose proof (Byte.to_N_bounded x). lia.
Qed.

Lemma bchr_run (h : heap) (v : value) :
  bchr v h
  = match as_byte v with
    | Ok x => alloc (OBytes [x]) h
    | Raise e => (Raise e, h)
    end.
Proof. unfold bchr, py_bytes. simpl. by destruct (as_byte v). Qed.

Lemma tobytes_int (h : heap) (c : Z) : tobytes (VInt c) h = bchr (VInt c) h.
Proof. reflexivity. Qed.

Lemma bchr_in_range (h : heap) (c : Z) :
  0 ≤ c ≤ 255 →
  ∃ x : byte,
    bchr (VInt c) h = (Ok (VObj (fresh (dom h))), <[fresh (dom h) := OBytes [x]]> h)
    ∧ Z.of_N (Byte.to_N x) = c.
Proof.
  intros Hc. destruct (as_byte_in_range c Hc) as (x & Hx & Hxc).
  exists x. split; [| done]. by rewrite bchr_run, Hx.
Qed.

Lemma bchr_out_of_range (h : heap) (c : Z) :
  c < 0 ∨ 255 < c → bchr (VInt c) h = (Raise ValueError, h).
Proof. intros Hc. by rewrite bchr_run, as_byte_out_of_range. Qed.

(** C5: [bchr(c)] raises [ValueError] for every integer outside [0, 255],
    and for every [c] in [0, 255] it returns a [bytes] object of length one
    whose element has value [c]. *)
Theorem bchr_range (h : heap) (c : Z) :
  (c < 0 ∨ 255 < c → bchr (VInt c) h = (Raise ValueError, h))
  ∧ (0 ≤ c ≤ 255 →
     ∃ (r : loc) (h' : heap) (x : byte),
       bchr (VInt c) h = (Ok (VObj r), h')
       ∧ h' !! r = Some (OBytes [x])
       ∧ Z.of_N (Byte.to_N x) = c).
Proof.
  split; [apply bchr_out_of_range |].
  intros Hc. destruct (bchr_in_range h c Hc) as (x & E & Hx).
  eexists _, _, x. split; [exact E |]. split; [by rewrite lookup_insert_eq | done].
Qed.

Lemma bchr_range_witness :
  bchr (VInt 256) ∅ = (Raise ValueError, ∅)
  ∧ bchr (VInt (-1)) ∅ = (Raise ValueError, ∅)
  ∧ (∃ (r : loc) (h' : heap) (x : byte),
       bchr (VInt 0) ∅ = (Ok (VObj r), h') ∧ h' !! r = Some (OBytes [x])
       ∧ Z.of_N (Byte.to_N x) = 0)
  ∧ (∃ (r : loc) (h' : heap) (x : byte),
       bchr (VInt 255) ∅ = (Ok (VObj r), h') ∧ h' !! r = Some (OBytes [x])
       ∧ Z.of_N (Byte.to_N x) = 255).
Proof.
  split; [apply (bchr_range ∅ 256); lia |].
  split; [apply (bchr_range ∅ (-1)); lia |].
  split; [apply (bchr_range ∅ 0); lia | apply (bchr_range ∅ 255); lia].
Defined.

(** C6: for every integer [c] in [0, 255], [bord(bchr(c)[0])] evaluates to
    [c]. *)
Theorem bord_bchr_roundtrip (h : heap) (c : Z) :
  0 ≤ c ≤ 255 →
  outcome ((x ← bchr (VInt c); e ← getitem x 0; bord e) h) = Ok (VInt c).
Proof.
  intros Hc. destruct (bchr_in_range h c Hc) as (x & E & Hx).
  erewrite bind_ok by exact E.
  unfold getitem. erewrite bind_ok.
  2:{ rewrite lookup_insert_eq. reflexivity. }
  unfold bord, outcome, int_of_byte. simpl. by rewrite Hx.
Qed.

Lemma bord_bchr_roundtrip_witness :
  outcome ((x ← bchr (VInt 200); e ← getitem x 0; bord e) h_sample) = Ok (VInt 200).
Proof. apply (bord_bchr_roundtrip h_sample 200). lia. Defined.

(** C10: [tobytes] of a bare integer is [bchr] of it: for [c] in [0, 255] a
    [bytes] object of length one with value [c], for any other integer a
    [ValueError]. *)
Theorem tobytes_of_int (h : heap) (c : Z) :
  tobytes (VInt c) h = bchr (VInt c) h
  ∧ (0 ≤ c ≤ 255 →
     ∃ (r : loc) (h' : heap) (x : byte),
       tobytes (VInt c) h = (Ok (VObj r), h')
       ∧ h' !! r = Some (OBytes [x])
       ∧ Z.of_N (Byte.to_N x) = c)
  ∧ (c < 0 ∨ 255 < c → tobytes (VInt c) h = (Raise ValueError, h)).
Proof.
  split; [apply tobytes_int |]. rewrite tobytes_int. split.
  - intros Hc. destruct (bchr_in_range h c Hc) as (x & E & Hx).
    eexists _, _, x. split; [exact E |].
    split; [by rewrite lookup_insert_eq | done].
  - apply bchr_out_of_range.
Qed.

Lemma tobytes_of_int_witness :
  (∃ (r : loc) (h' : heap) (x : byte),
     tobytes (VInt 65) h_sample = (Ok (VObj r), h')
     ∧ h' !! r = Some (OBytes [x])
     ∧ Z.of_N (Byte.to_N x) = 65)
  ∧ tobytes (VInt 300) h_sample = (Raise ValueError, h_sample).
Proof.
  split; [apply (tobytes_of_int h_sample 65); lia
         | apply (tobytes_of_int h_sample 300); lia].
Defined.

(** ** Text round trip *)

Lemma tostr_run (h : heap) (l : loc) (bs : list byte) :
  storage h l = Some bs → tostr (VObj l) h = (Ok (VStr (latin1_decode bs)), h).
Proof.
  unfold storage, tostr, decode_latin1. intros E.
  destruct (h !! l) as [[x | x | ? ? ? ?] |]; by simplify_eq.
Qed.

(** C7: for every textual value [s] whose code points are all at most 255,
    [tostr(tobytes(s))] is [s]; [tobytes("ABC")] is the three bytes 41 42 43
    (hexadecimal) and [tostr] of those bytes is "ABC"; and [tostr] of a
    [bytes] or a [bytearray] never raises: it returns the text whose code
    points are the byte values, and leaves the store as it was. *)
Theorem tostr_tobytes_roundtrip :
  (∀ (h : heap) (s : list N),
     Forall (λ c, (c ≤ 255)%N) s →
     outcome ((x ← tobytes (VStr s); tostr x) h) = Ok (VStr s))
  ∧ (∃ (r : loc) (h' : heap),
       tobytes (VStr str_ABC) ∅ = (Ok (VObj r), h')
       ∧ h' !! r = Some (OBytes [x41; x42; x43])
       ∧ tostr (VObj r) h' = (Ok (VStr str_ABC), h'))
  ∧ (∀ (h : heap) (l : loc) (bs : list byte),
       storage h l = Some bs →
       ∃ s : list N,
         tostr (VObj l) h = (Ok (VStr s), h)
         ∧ Forall2 (λ c x, c = Byte.to_N x) s bs).
Proof.
  split; [| split].
  - intros h s Hs. destruct (latin1_encode_total s Hs) as [bs Hbs].
    erewrite bind_ok.
    2:{ rewrite tobytes_str, b_run, Hbs. apply alloc_run. }
    erewrite tostr_run.
    2:{ unfold storage. by rewrite lookup_insert_eq. }
    unfold outcome; simpl. f_equal. f_equal. by apply latin1_decode_encode.
  - eexists _, _. split; [vm_compute; reflexivity |].
    split; vm_compute; reflexivity.
  - intros h l bs E. exists (latin1_decode bs).
    split; [by apply tostr_run |].
    unfold latin1_decode. apply Forall2_fmap_l, Forall_Forall2_diag.
    by apply Forall_true.
Qed.

Lemma tostr_tobytes_roundtrip_witness :
  outcome ((x ← tobytes (VStr [104; 233; 255]%N); tostr x) h_sample)
  = Ok (VStr [104; 233; 255]%N)
  ∧ (∃ s : list N,
       tostr (VObj 2) h_sample = (Ok (VStr s), h_sample)
       ∧ Forall2 (λ c x, c = Byte.to_N x) s bytes_10_40).
Proof.
  destruct tostr_tobytes_roundtrip as (Hround & _ & Htotal).
  split.
  - apply Hround. repeat constructor; by vm_compute.
  - apply Htotal. vm_compute. reflexivity.
Defined.

(** A [memoryview] is not a buffer with a [decode] method: [tostr] of a
    view raises [AttributeError]. *)
Example tostr_of_view :
  tostr (VObj 4) h_sample = (Raise AttributeError, h_sample).
Proof. vm_compute. reflexivity. Qed.

(** ** Identity on [bytes] *)

(** C8: for every [bytes] object, [tobytes] returns that very object (the
    same location) and allocates nothing: the store is unchanged.  Applying
    [tobytes] to the result therefore gives the same object again. *)
Theorem tobytes_bytes_identity (h : heap) (l : loc) (bs : list byte) :
  h !! l = Some (OBytes bs) →
  tobytes (VObj l) h = (Ok (VObj l), h)
  ∧ (x ← tobytes (VObj l); tobytes x) h = (Ok (VObj l), h).
Proof.
  intros E.
  assert (tobytes (VObj l) h = (Ok (VObj l), h)) as Hid.
  { unfold tobytes. erewrite bind_ok by apply isinstance_run.
    by rewrite (type_of_bytes _ _ _ E), bool_decide_eq_true_2. }
  split; [done |]. by erewrite bind_ok by exact Hid.
Qed.

Lemma tobytes_bytes_identity_witness :
  tobytes (VObj 1) h_sample = (Ok (VObj 1), h_sample)
  ∧ (x ← tobytes (VObj 1); tobytes x) h_sample = (Ok (VObj 1), h_sample).
Proof. apply (tobytes_bytes_identity h_sample 1 bytes_10_40). reflexivity. Defined.

(** A read-only view, which [_is_immutable] accepts, is not a [bytes]:
    [tobytes] sends it through [bytes([s])]. *)
Example tobytes_of_readonly_view :
  _is_immutable (VObj 4) h_sample = (Ok true, h_sample)
  ∧ tobytes (VObj 4) h_sample = (Raise TypeError, h_sample).
Proof. split; vm_compute; reflexivity. Qed.

(** ** Copies do not alias *)

(** An in-place update never changes a [bytes] object, whatever it is
    applied to. *)
Lemma setitem_keeps_bytes (h : heap) (seq : value) (i : Z) (v : value) r x :
  h !! r = Some (OBytes x) → final (setitem seq i v h) !! r = Some (OBytes x).
Proof.
  intros Hr. unfold setitem, final, raise.
  destruct seq as [| | | | l]; try done.
  destruct (h !! l) as [[y | y | base ro off n] |] eqn:E; try done.
  - repeat case_match; simpl; try done;
      (rewrite lookup_insert_ne; [done | congruence]).
  - destruct (h !! base) as [[y | y | ? ? ? ?] |] eqn:Eb; try done.
    repeat case_match; simpl; try done;
      (rewrite lookup_insert_ne; [done | congruence]).
Qed.

(** An in-place update of a [bytearray] changes that object only. *)
Lemma setitem_bytearray_frame (h : heap) (w : loc) (i : Z) (v : value) bs k :
  h !! w = Some (OByteArray bs) → k ≠ w →
  final (setitem (VObj w) i v h) !! k = h !! k.
Proof.
  intros Hw Hk. unfold setitem, final, raise. rewrite Hw.
  repeat case_match; simpl; try done; by rewrite lookup_insert_ne.
Qed.

(** In-place updates do happen: the element written is read back. *)
Example setitem_updates :
  final (setitem (VObj 2) 1 (VInt 255) h_sample) !! 2%positive
  = Some (OByteArray [x10; xff; x30; x40])
  ∧ contents (final (setitem (VObj 2) 1 (VInt 255) h_sample)) 3
    = Some [x10; xff; x30; x40].
Proof. split; vm_compute; reflexivity. Qed.

(** C9: for every [bytearray] [m] and bounds [0 ≤ start ≤ end ≤ len(m)],
    [_copy_bytes(start, end, m)] returns a [bytes] object, distinct from
    [m], that holds the elements of [m] in [start, end) as they are at the
    call, and leaves [m] as it was.  Whatever is later stored in [m], by
    any replacement of its contents or by an item assignment made through
    [m] or through a view of it, the copy still holds the same bytes.  And
    [bytearray(copy)] is a writable object distinct from [m] and from the
    copy: updating it changes neither. *)
Theorem copy_bytes_no_alias (h : heap) (m : loc) (bs : list byte) (start end_ : Z) :
  h !! m = Some (OByteArray bs) →
  0 ≤ start ≤ end_ → end_ ≤ Z.of_nat (length bs) →
  ∃ (r : loc) (h1 : heap) (res : list byte),
    _copy_bytes (VInt start) (VInt end_) (VObj m) h = (Ok (VObj r), h1)
    ∧ res = take (Z.to_nat (end_ - start)) (drop (Z.to_nat start) bs)
    ∧ h1 !! r = Some (OBytes res)
    ∧ r ≠ m
    ∧ h1 !! m = Some (OByteArray bs)
    ∧ (∀ bs' : list byte, <[m := OByteArray bs']> h1 !! r = Some (OBytes res))
    ∧ (∀ (seq : value) (i : Z) (v : value),
         final (setitem seq i v h1) !! r = Some (OBytes res))
    ∧ ∃ (w : loc) (h2 : heap),
        py_bytearray (VObj r) h1 = (Ok (VObj w), h2)
        ∧ h2 !! w = Some (OByteArray res)
        ∧ w ≠ m ∧ w ≠ r
        ∧ (∀ bs' : list byte,
             <[w := OByteArray bs']> h2 !! m = Some (OByteArray bs)
             ∧ <[w := OByteArray bs']> h2 !! r = Some (OBytes res))
        ∧ (∀ (i : Z) (v : value),
             final (setitem (VObj w) i v h2) !! m = Some (OByteArray bs)
             ∧ final (setitem (VObj w) i v h2) !! r = Some (OBytes res)).
Proof.
  intros Hm Hse He.
  destruct (copy_bytes_run h m bs start end_) as (r & h1 & E & Hfresh & Hr & Hsub).
  { unfold contents. by rewrite Hm. }
  rewrite slice_list_in_range in Hr by done.
  set (res := take _ _) in *.
  assert (r ≠ m) as Hrm by congruence.
  pose proof (Hsub _ _ Hm) as Hm1.
  exists r, h1, res. split; [done |]. split; [done |]. split; [done |].
  split; [done |]. split; [done |].
  split; [intros bs'; by rewrite lookup_insert_ne |].
  split; [intros seq i v; by apply setitem_keeps_bytes |].
  set (w := fresh (dom h1)).
  assert (h1 !! w = None) as Hw by apply alloc_fresh.
  assert (w ≠ m) as Hwm by congruence.
  assert (w ≠ r) as Hwr by congruence.
  exists w, (<[w := OByteArray res]> h1).
  split; [unfold py_bytearray; by rewrite Hr |].
  split; [by rewrite lookup_insert_eq |]. split; [done |]. split; [done |].
  split.
  - intros bs'. rewrite insert_insert_eq. by rewrite !lookup_insert_ne.
  - intros i v.
    rewrite !(setitem_bytearray_frame _ w i v res) by
      (done || by rewrite lookup_insert_eq).
    by rewrite !lookup_insert_ne.
Qed.

Lemma copy_bytes_no_alias_witness :
  ∃ (r : loc) (h1 : heap),
    _copy_bytes (VInt 1) (VInt 3) (VObj 2) h_sample = (Ok (VObj r), h1)
    ∧ h1 !! r = Some (OBytes [x20; x30])
    ∧ final (setitem (VObj 2) 1 (VInt 255) h1) !! r = Some (OBytes [x20; x30]).
Proof.
  destruct (copy_bytes_no_alias h_sample 2 bytes_10_40 1 3)
    as (r & h1 & res & E & -> & Hr & _ & _ & _ & Hset & _).
  { reflexivity. }
  { lia. }
  { vm_compute. discriminate. }
  exists r, h1. split; [exact E |]. split; [exact Hr |]. apply Hset.
Defined.

(** * Further properties of the module *)

(** ** [_copy_bytes] with [None] bounds *)

Lemma as_slice_index_bound (o : option Z) : as_slice_index (bound o) = Ok o.
Proof. by destruct o. Qed.

Lemma slice_bounds_range (n : Z) (lo hi : option Z) :
  0 ≤ n →
  0 ≤ (slice_bounds n lo hi).1 ≤ n ∧ 0 ≤ (slice_bounds n lo hi).2 ≤ n.
Proof.
  intros Hn. unfold slice_bounds; simpl.
  split; [destruct lo | destruct hi]; try lia; by apply adjust_index_range.
Qed.

Lemma getslice_bound_bytes (h : heap) l bs (lo hi : option Z) :
  h !! l = Some (OBytes bs) →
  getslice (VObj l) (bound lo) (bound hi) h = alloc (OBytes (slice_list lo hi bs)) h.
Proof.
  intros E. unfold getslice. rewrite E.
  unfold mbind, M_bind, lift. by rewrite !as_slice_index_bound.
Qed.

Lemma getslice_bound_bytearray (h : heap) l bs (lo hi : option Z) :
  h !! l = Some (OByteArray bs) →
  getslice (VObj l) (bound lo) (bound hi) h
  = alloc (OByteArray (slice_list lo hi bs)) h.
Proof.
  intros E. unfold getslice. rewrite E.
  unfold mbind, M_bind, lift. by rewrite !as_slice_index_bound.
Qed.

Lemma getslice_bound_memoryview (h : heap) l base ro off n bs (lo hi : option Z) :
  h !! l = Some (OMemoryView base ro off n) →
  storage h base = Some bs →
  getslice (VObj l) (bound lo) (bound hi) h
  = alloc (OMemoryView base ro
             (off + Z.to_nat (slice_bounds (Z.of_nat n) lo hi).1)
             (Z.to_nat ((slice_bounds (Z.of_nat n) lo hi).2
                        - (slice_bounds (Z.of_nat n) lo hi).1))) h.
Proof.
  intros E Eb. unfold getslice. rewrite E, Eb.
  unfold mbind, M_bind, lift. rewrite !as_slice_index_bound.
  by destruct (slice_bounds (Z.of_nat n) lo hi).
Qed.

Lemma slice_list_window_bound {A : Type} (xs : list A) (off n : nat)
    (lo hi : option Z) :
  (off + n ≤ length xs)%nat →
  take (Z.to_nat ((slice_bounds (Z.of_nat n) lo hi).2
                  - (slice_bounds (Z.of_nat n) lo hi).1))
    (drop (off + Z.to_nat (slice_bounds (Z.of_nat n) lo hi).1) xs)
  = slice_list lo hi (take n (drop off xs)).
Proof.
  intros Hwin. unfold slice_list.
  assert (length (take n (drop off xs)) = n) as ->
    by (rewrite length_take, length_drop; lia).
  pose proof (slice_bounds_range (Z.of_nat n) lo hi ltac:(lia)) as [Hi Hj].
  destruct (slice_bounds (Z.of_nat n) lo hi) as [i j]; simpl in *.
  rewrite <- drop_drop.
  rewrite skipn_firstn_comm, take_take.
  f_equal. lia.
Qed.

(** [_copy_bytes] on any binary container or view, each bound [None] or an
    integer: a new [bytes] object with the slice; every object that was in
    the store is still there, unchanged. *)
Lemma copy_bytes_run_bound (h : heap) l bs (lo hi : option Z) :
  contents h l = Some bs →
  ∃ (r : loc) (h' : heap),
    _copy_bytes (bound lo) (bound hi) (VObj l) h = (Ok (VObj r), h')
    ∧ h !! r = None
    ∧ h' !! r = Some (OBytes (slice_list lo hi bs))
    ∧ ∀ k o, h !! k = Some o → h' !! k = Some o.
Proof.
  unfold contents. intros Ec.
  destruct (h !! l) as [[x | x | base ro off n] |] eqn:E; simplify_eq.
  - unfold _copy_bytes.
    erewrite bind_ok by apply isinstance_run.
    rewrite (type_of_bytes _ _ _ E), bool_decide_eq_false_2 by done.
    erewrite bind_ok by apply isinstance_run.
    rewrite (type_of_bytes _ _ _ E), bool_decide_eq_false_2 by done.
    rewrite (getslice_bound_bytes _ _ _ _ _ E), alloc_run.
    eexists _, _. split; [done |]. split; [apply alloc_fresh |].
    split; [by rewrite lookup_insert_eq |]. intros k o. apply lookup_alloc.
  - unfold _copy_bytes.
    erewrite bind_ok by apply isinstance_run.
    rewrite (type_of_bytearray _ _ _ E), bool_decide_eq_false_2 by done.
    erewrite bind_ok by apply isinstance_run.
    rewrite (type_of_bytearray _ _ _ E), bool_decide_eq_true_2 by done.
    erewrite bind_ok
      by (rewrite (getslice_bound_bytearray _ _ _ _ _ E); apply alloc_run).
    set (h1 := <[fresh (dom h) := _]> h).
    assert (∀ k o, h !! k = Some o → h1 !! k = Some o) as Hsub
      by (intros k o; apply lookup_alloc).
    unfold py_bytes. unfold h1 at 1. rewrite lookup_insert_eq. fold h1.
    rewrite alloc_run.
    eexists _, _. split; [done |]. split.
    { destruct (h !! fresh (dom h1)) eqn:Ef; [| done].
      apply Hsub in Ef. by rewrite alloc_fresh in Ef. }
    split; [by rewrite lookup_insert_eq |].
    intros k o Hk. by apply lookup_alloc, Hsub.
  - destruct (storage h base) as [bsb |] eqn:Eb; [| done].
    case_decide as Hwin; simplify_eq.
    unfold _copy_bytes.
    erewrite bind_ok by apply isinstance_run.
    rewrite (type_of_memoryview _ _ _ _ _ _ E), bool_decide_eq_true_2 by done.
    erewrite bind_ok
      by (rewrite (getslice_bound_memoryview _ _ _ _ _ _ _ _ _ E Eb); apply alloc_run).
    set (h1 := <[fresh (dom h) := _]> h).
    assert (∀ k o, h !! k = Some o → h1 !! k = Some o) as Hsub
      by (intros k o; apply lookup_alloc).
    unfold memoryview_tobytes. unfold h1 at 1. rewrite lookup_insert_eq. fold h1.
    unfold h1 at 1. rewrite (storage_alloc _ _ _ _ Eb). fold h1.
    rewrite slice_list_window_bound by done. rewrite alloc_run.
    eexists _, _. split; [done |]. split.
    { destruct (h !! fresh (dom h1)) eqn:Ef; [| done].
      apply Hsub in Ef. by rewrite alloc_fresh in Ef. }
    split; [by rewrite lookup_insert_eq |].
    intros k o Hk. by apply lookup_alloc, Hsub.
Qed.

Lemma copy_bytes_returned (h : heap) l bs (lo hi : option Z) :
  contents h l = Some bs →
  returned_bytes (_copy_bytes (bound lo) (bound hi) (VObj l) h)
  = Some (slice_list lo hi bs).
Proof.
  intros Hc.
  destruct (copy_bytes_run_bound h l bs lo hi Hc) as (r & h' & -> & _ & Hr & _).
  unfold returned_bytes. by rewrite Hr.
Qed.

Lemma slice_list_none {A : Type} (xs : list A) : slice_list None None xs = xs.
Proof.
  unfold slice_list, slice_bounds. rewrite Z.sub_0_r, Nat2Z.id. simpl.
  by rewrite drop_0, firstn_all.
Qed.

Lemma slice_list_resolve_start {A : Type} (xs : list A) (i : Z) :
  slice_list (Some i) None xs
  = drop (Z.to_nat (resolve_bound (Z.of_nat (length xs)) i)) xs.
Proof.
  unfold slice_list, slice_bounds. rewrite adjust_index_resolve by lia.
  apply take_ge. rewrite length_drop. lia.
Qed.

Lemma slice_list_resolve_stop {A : Type} (xs : list A) (j : Z) :
  slice_list None (Some j) xs
  = take (Z.to_nat (resolve_bound (Z.of_nat (length xs)) j)) xs.
Proof.
  unfold slice_list, slice_bounds. rewrite adjust_index_resolve by lia.
  simpl. by rewrite Z.sub_0_r, drop_0.
Qed.

(** X1: with [None] for a bound, [_copy_bytes] copies from the start or up
    to the end of the container: [(None, None)] copies all of it,
    [(None, k)] its first [k] bytes, [(k, None)] all but its first [k]
    bytes, and [(-k, None)] its last [k] bytes when [k] is positive (for
    [k = 0] the bound [-0] is [0], and the copy is the whole container). *)
Theorem copy_bytes_none_bounds (h : heap) (l : loc) (bs : list byte) (k : Z) :
  contents h l = Some bs →
  0 ≤ k ≤ Z.of_nat (length bs) →
  returned_bytes (_copy_bytes VNone VNone (VObj l) h) = Some bs
  ∧ returned_bytes (_copy_bytes VNone (VInt k) (VObj l) h)
    = Some (take (Z.to_nat k) bs)
  ∧ returned_bytes (_copy_bytes (VInt k) VNone (VObj l) h)
    = Some (drop (Z.to_nat k) bs)
  ∧ (0 < k →
     returned_bytes (_copy_bytes (VInt (- k)) VNone (VObj l) h)
     = Some (drop (length bs - Z.to_nat k) bs))
  ∧ returned_bytes (_copy_bytes (VInt (- 0)) VNone (VObj l) h) = Some bs.
Proof.
  intros Hc Hk.
  pose proof (copy_bytes_returned h l bs (Some (- 0)) None Hc) as H5.
  pose proof (copy_bytes_returned h l bs None None Hc) as H1.
  pose proof (copy_bytes_returned h l bs None (Some k) Hc) as H2.
  pose proof (copy_bytes_returned h l bs (Some k) None Hc) as H3.
  pose proof (copy_bytes_returned h l bs (Some (- k)) None Hc) as H4.
  simpl in H1, H2, H3, H4, H5.
  rewrite H1, H2, H3, H4, H5, slice_list_none, slice_list_resolve_stop,
    !slice_list_resolve_start.
  unfold resolve_bound. split; [done |].
  split; [rewrite decide_False by lia; do 2 f_equal; lia |].
  split; [rewrite decide_False by lia; do 2 f_equal; lia |].
  split.
  - intros Hk0. rewrite decide_True by lia. do 2 f_equal. lia.
  - rewrite decide_False by lia. by rewrite Z.max_id, Z.min_r, drop_0 by lia.
Qed.

Lemma copy_bytes_none_bounds_witness :
  returned_bytes (_copy_bytes VNone VNone (VObj 3) h_sample) = Some bytes_10_40
  ∧ returned_bytes (_copy_bytes (VInt (- 1)) VNone (VObj 3) h_sample)
    = Some (drop (length bytes_10_40 - Z.to_nat 1) bytes_10_40).
Proof.
  destruct (copy_bytes_none_bounds h_sample 3 bytes_10_40 1)
    as (H1 & _ & _ & H4 & _).
  { vm_compute. reflexivity. }
  { vm_compute. split; discriminate. }
  split; [exact H1 | apply H4; reflexivity].
Defined.

(** X2: the copy is never longer than the container, for non-negative
    bounds never longer than [end - start], and for bounds within the
    container exactly [end - start] long. *)
Theorem copy_bytes_length (h : heap) (l : loc) (bs : list byte) (start end_ : Z) :
  contents h l = Some bs →
  ∃ res : list byte,
    returned_bytes (_copy_bytes (VInt start) (VInt end_) (VObj l) h) = Some res
    ∧ (length res ≤ length bs)%nat
    ∧ (0 ≤ start → 0 ≤ end_ → Z.of_nat (length res) ≤ Z.max 0 (end_ - start))
    ∧ (0 ≤ start ≤ end_ → end_ ≤ Z.of_nat (length bs) →
       Z.of_nat (length res) = end_ - start).
Proof.
  intros Hc.
  pose proof (copy_bytes_returned h l bs (Some start) (Some end_) Hc) as H.
  simpl in H. eexists. split; [exact H |].
  rewrite slice_list_resolve, length_take, length_drop.
  unfold resolve_bound. split; [lia |]. split.
  - intros Hs He. rewrite !decide_False by lia. lia.
  - intros Hs He. rewrite !decide_False by lia. lia.
Qed.

Lemma copy_bytes_length_witness :
  ∃ res : list byte,
    returned_bytes (_copy_bytes (VInt 1) (VInt 3) (VObj 2) h_sample) = Some res
    ∧ Z.of_nat (length res) = 3 - 1.
Proof.
  destruct (copy_bytes_length h_sample 2 bytes_10_40 1 3) as (res & E & _ & _ & Hlen).
  { vm_compute. reflexivity. }
  exists res. split; [exact E |]. apply Hlen; vm_compute; [split |]; discriminate.
Defined.

Lemma slice_list_app {A : Type} (xs : list A) (a c : option Z) (m : Z) :
  (slice_bounds (Z.of_nat (length xs)) a (Some m)).1
    ≤ (slice_bounds (Z.of_nat (length xs)) a (Some m)).2 →
  (slice_bounds (Z.of_nat (length xs)) (Some m) c).1
    ≤ (slice_bounds (Z.of_nat (length xs)) (Some m) c).2 →
  slice_list a (Some m) xs ++ slice_list (Some m) c xs = slice_list a c xs.
Proof.
  unfold slice_list.
  pose proof (slice_bounds_range (Z.of_nat (length xs)) a (Some m) ltac:(lia)) as [Ha Hm].
  pose proof (slice_bounds_range (Z.of_nat (length xs)) (Some m) c ltac:(lia)) as [_ Hc].
  unfold slice_bounds in *. simpl in *.
  set (lo := match a with None => 0 | Some i => _ end) in *.
  set (hi := match c with None => _ | Some i => _ end) in *.
  set (mid := adjust_index _ m) in *.
  intros Hlm Hmh.
  replace (Z.to_nat mid) with (Z.to_nat lo + Z.to_nat (mid - lo))%nat by lia.
  rewrite <- drop_drop, take_take_drop. f_equal. lia.
Qed.

(** X3: copies of adjacent ranges join up.  For every integer [k], the copy
    up to [k] followed by the copy from [k] is the whole container; and for
    [0 ≤ a ≤ m ≤ c], the copies of [a, m) and [m, c) make the copy of
    [a, c). *)
Theorem copy_bytes_split (h : heap) (l : loc) (bs : list byte) (k a m c : Z) :
  contents h l = Some bs →
  0 ≤ a ≤ m → m ≤ c →
  (∃ x y : list byte,
     returned_bytes (_copy_bytes VNone (VInt k) (VObj l) h) = Some x
     ∧ returned_bytes (_copy_bytes (VInt k) VNone (VObj l) h) = Some y
     ∧ x ++ y = bs)
  ∧ (∃ x y : list byte,
       returned_bytes (_copy_bytes (VInt a) (VInt m) (VObj l) h) = Some x
       ∧ returned_bytes (_copy_bytes (VInt m) (VInt c) (VObj l) h) = Some y
       ∧ returned_bytes (_copy_bytes (VInt a) (VInt c) (VObj l) h) = Some (x ++ y)).
Proof.
  intros Hc Ham Hmc.
  pose proof (λ lo hi, copy_bytes_returned h l bs lo hi Hc) as R.
  split.
  - eexists _, _. split; [apply (R None (Some k)) |].
    split; [apply (R (Some k) None) |].
    rewrite slice_list_app, slice_list_none; [done | |];
      pose proof (adjust_index_range (Z.of_nat (length bs)) k ltac:(lia));
      simpl; lia.
  - eexists _, _. split; [apply (R (Some a) (Some m)) |].
    split; [apply (R (Some m) (Some c)) |].
    rewrite slice_list_app; [apply (R (Some a) (Some c)) | |];
      simpl; rewrite !adjust_index_resolve by lia; unfold resolve_bound;
      rewrite !decide_False by lia; lia.
Qed.

Lemma copy_bytes_split_witness :
  ∃ x y : list byte,
    returned_bytes (_copy_bytes (VInt 0) (VInt 1) (VObj 2) h_sample) = Some x
    ∧ returned_bytes (_copy_bytes (VInt 1) (VInt 9) (VObj 2) h_sample) = Some y
    ∧ returned_bytes (_copy_bytes (VInt 0) (VInt 9) (VObj 2) h_sample)
      = Some (x ++ y).
Proof.
  apply (copy_bytes_split h_sample 2 bytes_10_40 0 0 1 9).
  - vm_compute. reflexivity.
  - vm_compute. split; discriminate.
  - vm_compute. discriminate.
Defined.

(** ** [_copy_bytes]: what it rejects and what it lets through *)





(** X5: [_copy_bytes] does not check that its argument is binary.  A [str]
    or a list takes the last branch and comes back as a slice of the same
    class, so the result is text, which [_is_immutable] does not accept;
    [None] and an integer cannot be sliced and raise [TypeError]. *)
Theorem copy_bytes_not_binary (h : heap) (lo hi : option Z) :
  (∀ s : list N,
     _copy_bytes (bound lo) (bound hi) (VStr s) h
     = (Ok (VStr (slice_list lo hi s)), h)
     ∧ (r ← _copy_bytes (bound lo) (bound hi) (VStr s); _is_immutable r) h
       = (Ok false, h))
  ∧ (∀ xs : list value,
       _copy_bytes (bound lo) (bound hi) (VList xs) h
       = (Ok (VList (slice_list lo hi xs)), h))
  ∧ _copy_bytes (bound lo) (bound hi) VNone h = (Raise TypeError, h)
  ∧ (∀ n : Z, _copy_bytes (bound lo) (bound hi) (VInt n) h = (Raise TypeError, h)).
Proof.
  assert (∀ s, _copy_bytes (bound lo) (bound hi) (VStr s) h
               = (Ok (VStr (slice_list lo hi s)), h)) as Hstr.
  { intros s. unfold _copy_bytes, getslice, mbind, M_bind, isinstance, lift.
    simpl. by rewrite !as_slice_index_bound. }
  split; [| split; [| split]].
  - intros s. split; [apply Hstr |]. by erewrite bind_ok by apply Hstr.
  - intros xs. unfold _copy_bytes, getslice, mbind, M_bind, isinstance, lift.
    simpl. by rewrite !as_slice_index_bound.
  - reflexivity.
  - reflexivity.
Qed.

(** ** The result of [_copy_bytes] *)

Lemma is_immutable_bytes (h : heap) l x :
  h !! l = Some (OBytes x) → _is_immutable (VObj l) h = (Ok true, h).
Proof.
  intros E. unfold _is_immutable, byte_string.
  erewrite bind_ok by apply isinstance_run.
  by rewrite (type_of_bytes _ _ _ E), bool_decide_eq_true_2.
Qed.

Lemma tobytes_bytes (h : heap) l x :
  h !! l = Some (OBytes x) → tobytes (VObj l) h = (Ok (VObj l), h).
Proof.
  intros E. unfold tobytes.
  erewrite bind_ok by apply isinstance_run.
  by rewrite (type_of_bytes _ _ _ E), bool_decide_eq_true_2.
Qed.

(** X6: whatever binary container or view it is given, and whatever the
    bounds, [_copy_bytes] returns an object that [_is_immutable] accepts,
    that [_is_mutable] rejects, and that [tobytes] hands back as it is. *)
Theorem copy_bytes_result_immutable (h : heap) (l : loc) (bs : list byte)
    (lo hi : option Z) :
  contents h l = Some bs →
  outcome ((r ← _copy_bytes (bound lo) (bound hi) (VObj l); _is_immutable r) h)
  = Ok true
  ∧ outcome ((r ← _copy_bytes (bound lo) (bound hi) (VObj l); _is_mutable r) h)
    = Ok false
  ∧ (r ← _copy_bytes (bound lo) (bound hi) (VObj l); tobytes r) h
    = _copy_bytes (bound lo) (bound hi) (VObj l) h.
Proof.
  intros Hc.
  destruct (copy_bytes_run_bound h l bs lo hi Hc) as (r & h' & E & _ & Hr & _).
  rewrite !(bind_ok _ _ _ _ _ E), E.
  unfold _is_mutable. rewrite (bind_ok _ _ _ _ _ (is_immutable_bytes _ _ _ Hr)).
  by rewrite (is_immutable_bytes _ _ _ Hr), (tobytes_bytes _ _ _ Hr).
Qed.

Lemma copy_bytes_result_immutable_witness :
  outcome ((r ← _copy_bytes VNone (VInt 2) (VObj 3); _is_immutable r) h_sample)
  = Ok true.
Proof.
  apply (copy_bytes_result_immutable h_sample 3 bytes_10_40 None (Some 2)).
  vm_compute. reflexivity.
Defined.

Lemma contents_mono (h h' : heap) (k : loc) (x : list byte) :
  (∀ j o, h !! j = Some o → h' !! j = Some o) →
  contents h k = Some x → contents h' k = Some x.
Proof.
  intros Hsub. unfold contents, storage.
  destruct (h !! k) as [[y | y | base ro off n] |] eqn:E; try done.
  - by rewrite (Hsub _ _ E).
  - by rewrite (Hsub _ _ E).
  - rewrite (Hsub _ _ E).
    destruct (h !! base) as [[y | y | ? ? ? ?] |] eqn:Eb; try done;
      by rewrite (Hsub _ _ Eb).
Qed.

(** X7: [_copy_bytes] changes nothing that was there.  Every object of the
    store is the same after the call, so every container and view, the
    source among them, shows the same bytes as before. *)
Theorem copy_bytes_frame (h : heap) (l : loc) (bs : list byte) (lo hi : option Z) :
  contents h l = Some bs →
  (∀ (k : loc) (o : obj),
     h !! k = Some o →
     final (_copy_bytes (bound lo) (bound hi) (VObj l) h) !! k = Some o)
  ∧ (∀ (k : loc) (x : list byte),
       contents h k = Some x →
       contents (final (_copy_bytes (bound lo) (bound hi) (VObj l) h)) k = Some x).
Proof.
  intros Hc.
  destruct (copy_bytes_run_bound h l bs lo hi Hc) as (r & h' & E & _ & _ & Hsub).
  rewrite E. unfold final; simpl.
  split; [exact Hsub | intros k x; by apply contents_mono].
Qed.

Lemma copy_bytes_frame_witness :
  contents (final (_copy_bytes (VInt 1) VNone (VObj 2) h_sample)) 3
  = Some bytes_10_40.
Proof.
  apply (copy_bytes_frame h_sample 2 bytes_10_40 (Some 1) None).
  - vm_compute. reflexivity.
  - vm_compute. reflexivity.
Defined.

(** ** Views are live *)

Lemma setitem_bytearray_run (h : heap) (m : loc) (bs : list byte) (i c : Z) :
  h !! m = Some (OByteArray bs) →
  0 ≤ i < Z.of_nat (length bs) → 0 ≤ c ≤ 255 →
  ∃ y : byte,
    Z.of_N (Byte.to_N y) = c
    ∧ setitem (VObj m) i (VInt c) h
      = (Ok (), <[m := OByteArray (<[Z.to_nat i := y]> bs)]> h).
Proof.
  intros Hm Hi Hc. destruct (as_byte_in_range c Hc) as (y & Hy & Hyc).
  exists y. split; [done |]. unfold setitem. rewrite Hm.
  destruct (Z.ltb_spec i 0); [lia |].
  destruct (Z.ltb_spec i 0); [lia |].
  destruct (Z.leb_spec (Z.of_nat (length bs)) i); [lia |]. cbn [orb].
  by rewrite Hy.
Qed.

(** X8: a copy made through a view sees the container as it is at the time
    of the call.  After the item assignment [m[i] = c] on a [bytearray]
    [m], [_copy_bytes(None, None, v)] for a view [v] onto the window
    [off, off+n) of [m] returns the updated bytes of that window. *)
Theorem copy_bytes_view_after_update (h : heap) (v m : loc) (ro : bool)
    (off n : nat) (bs : list byte) (i c : Z) :
  h !! v = Some (OMemoryView m ro off n) →
  h !! m = Some (OByteArray bs) →
  (off + n ≤ length bs)%nat →
  0 ≤ i < Z.of_nat (length bs) → 0 ≤ c ≤ 255 →
  ∃ y : byte,
    Z.of_N (Byte.to_N y) = c
    ∧ returned_bytes
        ((_ ← setitem (VObj m) i (VInt c); _copy_bytes VNone VNone (VObj v)) h)
      = Some (take n (drop off (<[Z.to_nat i := y]> bs))).
Proof.
  intros Hv Hm Hwin Hi Hc.
  destruct (setitem_bytearray_run h m bs i c Hm Hi Hc) as (y & Hy & E).
  exists y. split; [done |]. rewrite (bind_ok _ _ _ _ _ E).
  assert (v ≠ m) as Hvm by congruence.
  rewrite <- (slice_list_none (take n _)).
  apply (copy_bytes_returned _ v _ None None).
  unfold contents, storage.
  rewrite lookup_insert_ne, Hv, lookup_insert_eq by done.
  rewrite decide_True; [done |]. by rewrite length_insert.
Qed.

Lemma copy_bytes_view_after_update_witness :
  ∃ y : byte,
    Z.of_N (Byte.to_N y) = 255
    ∧ returned_bytes
        ((_ ← setitem (VObj 2) 1 (VInt 255); _copy_bytes VNone VNone (VObj 3))
           h_sample)
      = Some (take 4 (drop 0 (<[Z.to_nat 1 := y]> bytes_10_40))).
Proof.
  apply (copy_bytes_view_after_update h_sample 3 2 false 0 4 bytes_10_40 1 255).
  - vm_compute. reflexivity.
  - vm_compute. reflexivity.
  - vm_compute. lia.
  - vm_compute. split; [discriminate | reflexivity].
  - lia.
Defined.

(** ** [tobytes]: results and failures *)

Lemma py_bytes_singleton (h : heap) (s : value) :
  py_bytes (VList [s]) h
  = match as_byte s with
    | Ok x => alloc (OBytes [x]) h
    | Raise e => (Raise e, h)
    end.
Proof. unfold py_bytes. simpl. by destruct (as_byte s). Qed.

Lemma tobytes_cases (h : heap) (s : value) :
  tobytes s h
  = if bool_decide (type_of h s = Tbytes) then (Ok s, h)
    else if bool_decide (type_of h s = Tstr) then encode_latin1 s h
    else py_bytes (VList [s]) h.
Proof.
  unfold tobytes. erewrite bind_ok by apply isinstance_run.
  destruct (bool_decide (type_of h s = Tbytes)); [done |].
  erewrite bind_ok by apply isinstance_run.
  by destruct (bool_decide (type_of h s = Tstr)).
Qed.

Lemma type_of_bytes_inv (h : heap) (s : value) :
  type_of h s = Tbytes → ∃ l x, s = VObj l ∧ h !! l = Some (OBytes x).
Proof.
  destruct s as [| | | | l]; try done. simpl.
  destruct (h !! l) as [[x | x | ? ? ? ?] |] eqn:E; try done. by eexists _, _.
Qed.

(** X9: whenever [tobytes] returns, what it returns is a [bytes] object,
    [byte_string] accepts it, and a second [tobytes] hands back that same
    object without touching the store. *)
Theorem tobytes_result (h h' : heap) (s r : value) :
  tobytes s h = (Ok r, h') →
  (∃ (l : loc) (x : list byte), r = VObj l ∧ h' !! l = Some (OBytes x))
  ∧ byte_string r h' = (Ok true, h')
  ∧ tobytes r h' = (Ok r, h').
Proof.
  intros E.
  assert (∃ l x, r = VObj l ∧ h' !! l = Some (OBytes x)) as (l & x & -> & Hl).
  { rewrite tobytes_cases in E.
    case_bool_decide as Hb.
    - simplify_eq. by apply type_of_bytes_inv.
    - case_bool_decide as Hs.
      + destruct s as [| | cps | |]; try done. unfold encode_latin1 in E.
        destruct (latin1_encode cps) as [x |]; [| done].
        rewrite alloc_run in E. simplify_eq.
        eexists _, x. by rewrite lookup_insert_eq.
      + rewrite py_bytes_singleton in E.
        destruct (as_byte s) as [x |]; [| done].
        rewrite alloc_run in E. simplify_eq.
        eexists _, [x]. by rewrite lookup_insert_eq. }
  split; [by eexists _, _ |]. split; [| by apply (tobytes_bytes _ _ x)].
  unfold byte_string. rewrite isinstance_run.
  by rewrite (type_of_bytes _ _ _ Hl), bool_decide_eq_true_2.
Qed.

Lemma tobytes_result_witness :
  tobytes (VObj 5) (<[5%positive := OBytes [x41; x42; x43]]> h_sample)
  = (Ok (VObj 5), <[5%positive := OBytes [x41; x42; x43]]> h_sample).
Proof.
  apply (tobytes_result h_sample _ (VStr str_ABC)).
  vm_compute. reflexivity.
Defined.



(** ** Binary to text and back *)

Lemma latin1_encode_decode (bs : list byte) :
  latin1_encode (latin1_decode bs) = Some bs.
Proof.
  unfold latin1_encode, latin1_decode. apply mapM_fmap_Some, Byte.of_to_N.
Qed.

Lemma latin1_decode_bounded (bs : list byte) :
  Forall (λ c, (c ≤ 255)%N) (latin1_decode bs).
Proof.
  unfold latin1_decode. apply Forall_fmap, Forall_forall.
  intros x _. apply Byte.to_N_bounded.
Qed.

(** X11: decoding and encoding again gives the bytes back.  For every
    [bytes] or [bytearray] object, [tostr] returns a text with no code point
    above 255, and [b(tostr(bs))] and [tobytes(tostr(bs))] return a [bytes]
    object with the bytes of [bs]. *)
Theorem b_tostr_roundtrip (h : heap) (l : loc) (bs : list byte) :
  storage h l = Some bs →
  (∃ s : list N,
     tostr (VObj l) h = (Ok (VStr s), h) ∧ Forall (λ c, (c ≤ 255)%N) s)
  ∧ returned_bytes ((s ← tostr (VObj l); b s) h) = Some bs
  ∧ returned_bytes ((s ← tostr (VObj l); tobytes s) h) = Some bs.
Proof.
  intros E. pose proof (tostr_run h l bs E) as Ht.
  split; [eexists; split; [exact Ht | apply latin1_decode_bounded] |].
  rewrite !(bind_ok _ _ _ _ _ Ht), tobytes_str, b_run, latin1_encode_decode.
  rewrite alloc_run. unfold returned_bytes. by rewrite lookup_insert_eq.
Qed.

Lemma b_tostr_roundtrip_witness :
  returned_bytes ((s ← tostr (VObj 2); b s) h_sample) = Some bytes_10_40.
Proof.
  apply (b_tostr_roundtrip h_sample 2 bytes_10_40). vm_compute. reflexivity.
Defined.



Lemma tobytes_str_returned (h : heap) (s : list N) (x : list byte) :
  returned_bytes (tobytes (VStr s) h) = Some x → latin1_encode s = Some x.
Proof.
  rewrite tobytes_str, b_run.
  destruct (latin1_encode s) as [bs |]; [| done].
  rewrite alloc_run. unfold returned_bytes. rewrite lookup_insert_eq. congruence.
Qed.

(** X13: no two texts are converted to the same bytes.  If [tobytes]
    returns equal bytes for two [str] values, in whatever stores, the two
    are the same text; and the result has one byte per code point. *)
Theorem tobytes_str_injective (h1 h2 : heap) (s1 s2 : list N) (x : list byte) :
  returned_bytes (tobytes (VStr s1) h1) = Some x →
  returned_bytes (tobytes (VStr s2) h2) = Some x →
  s1 = s2 ∧ length x = length s1.
Proof.
  intros E1%tobytes_str_returned E2%tobytes_str_returned.
  apply latin1_decode_encode in E1 as D1. apply latin1_decode_encode in E2 as D2.
  split; [congruence |]. rewrite <- D1. unfold latin1_decode.
  by rewrite length_fmap.
Qed.

Lemma tobytes_str_injective_witness :
  str_ABC = [65; 66; 67]%N ∧ length [x41; x42; x43] = length str_ABC.
Proof.
  apply (tobytes_str_injective ∅ h_sample str_ABC [65; 66; 67]%N [x41; x42; x43]);
    vm_compute; reflexivity.
Defined.

(** ** Elements of a converted text *)

Lemma index_list_lookup {A : Type} (xs : list A) (i : nat) (x : A) :
  xs !! i = Some x → index_list (Z.of_nat i) xs = Ok x.
Proof.
  intros E. unfold index_list.
  destruct (Z.ltb_spec (Z.of_nat i) 0); [lia |].
  destruct (Z.ltb_spec (Z.of_nat i) 0); [lia |].
  by rewrite Nat2Z.id, E.
Qed.

Lemma index_list_out_of_range {A : Type} (xs : list A) (i : Z) :
  Z.of_nat (length xs) ≤ i → index_list i xs = Raise IndexError.
Proof.
  intros Hi. unfold index_list.
  destruct (Z.ltb_spec i 0); [lia |].
  destruct (Z.ltb_spec i 0); [lia |].
  rewrite lookup_ge_None_2; [done | lia].
Qed.

(** X14: indexing the converted text gives the code points.  For a text [s]
    with no code point above 255, [bord(tobytes(s)[i])] is the code point of
    [s] at position [i] for every [i < len(s)], and the indexing raises
    [IndexError] for every [i ≥ len(s)]. *)
Theorem bord_tobytes_index (h : heap) (s : list N) :
  Forall (λ c, (c ≤ 255)%N) s →
  (∀ (i : nat) (c : N),
     s !! i = Some c →
     outcome ((x ← tobytes (VStr s); e ← getitem x (Z.of_nat i); bord e) h)
     = Ok (VInt (Z.of_N c)))
  ∧ (∀ i : Z,
       Z.of_nat (length s) ≤ i →
       outcome ((x ← tobytes (VStr s); e ← getitem x i; bord e) h)
       = Raise IndexError).
Proof.
  intros Hs. destruct (latin1_encode_total s Hs) as [bs Hbs].
  pose proof (latin1_decode_encode s bs Hbs) as Hd.
  assert (tobytes (VStr s) h
          = (Ok (VObj (fresh (dom h))), <[fresh (dom h) := OBytes bs]> h)) as E
    by (rewrite tobytes_str, b_run, Hbs; apply alloc_run).
  split.
  - intros i c Hi. rewrite (bind_ok _ _ _ _ _ E).
    assert (bs !! i = Some (default x00 (bs !! i)) ∧
            Byte.to_N (default x00 (bs !! i)) = c) as [Hb Hc].
    { rewrite <- Hd in Hi. unfold latin1_decode in Hi.
      rewrite list_lookup_fmap in Hi.
      destruct (bs !! i) as [y |]; simplify_eq/=. done. }
    unfold getitem. erewrite bind_ok.
    2:{ rewrite lookup_insert_eq. unfold lift.
        by rewrite (index_list_lookup _ _ _ Hb). }
    unfold bord, outcome, int_of_byte; simpl. by rewrite Hc.
  - intros i Hi. rewrite (bind_ok _ _ _ _ _ E).
    unfold getitem. erewrite bind_raise; [done |].
    rewrite lookup_insert_eq. unfold lift.
    rewrite index_list_out_of_range; [done |].
    rewrite <- Hd in Hi. unfold latin1_decode in Hi.
    by rewrite length_fmap in Hi.
Qed.

Lemma bord_tobytes_index_witness :
  outcome ((x ← tobytes (VStr str_ABC); e ← getitem x (Z.of_nat 1); bord e) ∅)
  = Ok (VInt (Z.of_N 66))
  ∧ outcome ((x ← tobytes (VStr str_ABC); e ← getitem x 3; bord e) ∅)
    = Raise IndexError.
Proof.
  destruct (bord_tobytes_index ∅ str_ABC) as [Hin Hout].
  { repeat constructor; by vm_compute. }
  split; [by apply Hin | apply Hout; vm_compute; discriminate].
Defined.

(** ** [bstr] *)

Lemma bstr_cases (h : heap) (s : value) :
  bstr s h
  = if bool_decide (type_of h s = Tstr) then py_bytes_latin1 s h else py_bytes s h.
Proof.
  unfold bstr. erewrite bind_ok by apply isinstance_run.
  by destruct (bool_decide (type_of h s = Tstr)).
Qed.

(** X15: [bstr] copies a binary container.  For every [bytes], [bytearray]
    or view, [bstr] returns a [bytes] object with the bytes seen through
    its argument, and every object of the store is unchanged.  ([tobytes]
    raises [TypeError] on a [bytearray] and on a view.) *)
Theorem bstr_of_container (h : heap) (l : loc) (bs : list byte) :
  contents h l = Some bs →
  returned_bytes (bstr (VObj l) h) = Some bs
  ∧ (∀ (k : loc) (o : obj), h !! k = Some o → final (bstr (VObj l) h) !! k = Some o).
Proof.
  unfold contents. intros Hc. rewrite bstr_cases.
  assert (type_of h (VObj l) ≠ Tstr) as Ht
    by (simpl; by destruct (h !! l) as [[| |] |]).
  rewrite bool_decide_eq_false_2 by done. unfold py_bytes.
  assert (∀ x, returned_bytes (alloc (OBytes x) h) = Some x
               ∧ ∀ k o, h !! k = Some o → final (alloc (OBytes x) h) !! k = Some o)
    as Halloc.
  { intros x. rewrite alloc_run. unfold returned_bytes, final; simpl.
    rewrite lookup_insert_eq. split; [done |]. intros k o. apply lookup_alloc. }
  destruct (h !! l) as [[x | x | base ro off n] |] eqn:E; simplify_eq.
  - apply Halloc.
  - apply Halloc.
  - destruct (storage h base) as [bsb |] eqn:Eb; [| done].
    case_decide; simplify_eq. apply Halloc.
Qed.

Lemma bstr_of_container_witness :
  returned_bytes (bstr (VObj 3) h_sample) = Some bytes_10_40.
Proof.
  apply (bstr_of_container h_sample 3 bytes_10_40). vm_compute. reflexivity.
Defined.



Lemma mapM_result_cons {A B : Type} (f : A → result B) (x : A) (xs : list A) :
  mapM f (x :: xs)
  = match f x with
    | Ok y =>
        match mapM f xs with
        | Ok k => Ok (y :: k)
        | Raise e => Raise e
        end
    | Raise e => Raise e
    end.
Proof. simpl. destruct (f x); [| done]. simpl. by destruct (mapM f xs). Qed.

Lemma mapM_as_byte_in_range (xs : list Z) :
  Forall (λ c, 0 ≤ c ≤ 255) xs →
  ∃ bs : list byte,
    mapM as_byte (VInt <$> xs) = Ok bs
    ∧ Forall2 (λ c y, Z.of_N (Byte.to_N y) = c) xs bs.
Proof.
  induction 1 as [| c xs Hc _ (bs & E & IH)]; [by exists [] |].
  destruct (as_byte_in_range c Hc) as (y & Hy & Hyc).
  exists (y :: bs). split; [| by constructor].
  by rewrite fmap_cons, mapM_result_cons, Hy, E.
Qed.

Lemma mapM_as_byte_out_of_range (xs : list Z) :
  Exists (λ c, c < 0 ∨ 255 < c) xs →
  mapM as_byte (VInt <$> xs) = Raise ValueError.
Proof.
  induction xs as [| c xs IH]; [by intros ?%Exists_nil |].
  intros Hex. rewrite fmap_cons.
  destruct (decide (0 ≤ c ≤ 255)) as [Hc | Hc].
  - destruct (as_byte_in_range c Hc) as (y & Hy & _).
    apply Exists_cons in Hex as [? | Hex]; [lia |].
    by rewrite mapM_result_cons, Hy, (IH Hex).
  - by rewrite mapM_result_cons, as_byte_out_of_range by lia.
Qed.

(** X17: [bstr] of a list of integers is the bytes of those values, one
    byte each, when all of them are in [0, 255] (the empty list gives the
    empty [bytes]); if one of them is not, [bstr] raises [ValueError]. *)
Theorem bstr_of_int_list (h : heap) (xs : list Z) :
  (Forall (λ c, 0 ≤ c ≤ 255) xs →
   ∃ bs : list byte,
     returned_bytes (bstr (VList (VInt <$> xs)) h) = Some bs
     ∧ Forall2 (λ c y, Z.of_N (Byte.to_N y) = c) xs bs)
  ∧ (Exists (λ c, c < 0 ∨ 255 < c) xs →
     bstr (VList (VInt <$> xs)) h = (Raise ValueError, h)).
Proof.
  rewrite bstr_cases. simpl. split.
  - intros Hxs. destruct (mapM_as_byte_in_range xs Hxs) as (bs & E & Hbs).
    exists bs. split; [| done].
    erewrite bind_ok by (unfold lift; by rewrite E).
    rewrite alloc_run. unfold returned_bytes. by rewrite lookup_insert_eq.
  - intros Hex. apply bind_raise. unfold lift.
    by rewrite mapM_as_byte_out_of_range.
Qed.

Lemma bstr_of_int_list_witness :
  (∃ bs : list byte,
     returned_bytes (bstr (VList (VInt <$> [1; 2])) h_sample) = Some bs
     ∧ Forall2 (λ c y, Z.of_N (Byte.to_N y) = c) [1; 2] bs)
  ∧ bstr (VList (VInt <$> [1; 256])) h_sample = (Raise ValueError, h_sample).
Proof.
  split.
  - apply (bstr_of_int_list h_sample [1; 2]). repeat constructor; lia.
  - apply (bstr_of_int_list h_sample [1; 256]).
    apply Exists_cons_tl, Exists_cons_hd. lia.
Defined.

(** X18: on text [bstr] is the Latin-1 conversion too.  For every [str] it
    raises exactly when a code point is above 255, with
    [UnicodeEncodeError], otherwise returns a [bytes] object with the byte
    N for each code point N; outcome and store are those of [b] and of
    [tobytes]. *)
Theorem bstr_of_str (h : heap) (s : list N) :
  latin1_conversion bstr h s
  ∧ bstr (VStr s) h = b (VStr s) h
  ∧ bstr (VStr s) h = tobytes (VStr s) h.
Proof.
  assert (bstr (VStr s) h = b (VStr s) h) as E by reflexivity.
  split; [| by rewrite tobytes_str].
  unfold latin1_conversion. rewrite E. apply b_latin1_conversion.
Qed.

Lemma bstr_of_str_witness :
  ∃ (r : loc) (h' : heap) (bs : list byte),
    bstr (VStr str_ABC) h_sample = (Ok (VObj r), h')
    ∧ h' !! r = Some (OBytes bs)
    ∧ Forall2 (λ c x, Byte.to_N x = c) str_ABC bs.
Proof.
  apply (bstr_of_str h_sample str_ABC). repeat constructor; by vm_compute.
Defined.

(** ** Classification of every value *)


(** X20: the answer of [_is_immutable] is about the object asked, not about
    the bytes behind it.  A view with the [readonly] flag onto a
    [bytearray] is accepted before and after an item assignment on that
    [bytearray], while the bytes seen through the view change. *)
Theorem readonly_view_not_frozen (h : heap) (v m : loc) (off n : nat)
    (bs : list byte) (i c : Z) :
  h !! v = Some (OMemoryView m true off n) →
  h !! m = Some (OByteArray bs) →
  (off + n ≤ length bs)%nat →
  Z.of_nat off ≤ i < Z.of_nat (off + n) → 0 ≤ c ≤ 255 →
  ∃ (y : byte) (h' : heap),
    Z.of_N (Byte.to_N y) = c
    ∧ setitem (VObj m) i (VInt c) h = (Ok (), h')
    ∧ _is_immutable (VObj v) h = (Ok true, h)
    ∧ _is_immutable (VObj v) h' = (Ok true, h')
    ∧ contents h v = Some (take n (drop off bs))
    ∧ contents h' v = Some (<[(Z.to_nat i - off)%nat := y]> (take n (drop off bs))).
Proof.
  intros Hv Hm Hwin Hi Hc.
  destruct (setitem_bytearray_run h m bs i c Hm ltac:(lia) Hc) as (y & Hy & E).
  assert (v ≠ m) as Hvm by congruence.
  set (h' := <[m := _]> h) in *.
  assert (h' !! v = Some (OMemoryView m true off n)) as Hv'
    by (unfold h'; by rewrite lookup_insert_ne).
  assert (∀ g, g !! v = Some (OMemoryView m true off n) →
               _is_immutable (VObj v) g = (Ok true, g)) as Himm.
  { intros g Hg. unfold _is_immutable, byte_string.
    erewrite bind_ok by apply isinstance_run.
    rewrite (type_of_memoryview _ _ _ _ _ _ Hg), bool_decide_eq_false_2 by done.
    erewrite bind_ok by apply isinstance_run.
    rewrite (type_of_memoryview _ _ _ _ _ _ Hg), bool_decide_eq_true_2 by done.
    by erewrite bind_ok by (unfold memoryview_readonly; by rewrite Hg). }
  exists y, h'. split; [done |]. split; [done |].
  split; [by apply Himm |]. split; [by apply Himm |].
  unfold contents, storage. rewrite Hv, Hm, Hv'. unfold h' at 1.
  rewrite lookup_insert_eq, length_insert, !decide_True by done.
  split; [done |]. f_equal.
  rewrite drop_insert_ge by lia. rewrite take_insert_lt by lia. done.
Qed.

Lemma readonly_view_not_frozen_witness :
  ∃ (y : byte) (h' : heap),
    Z.of_N (Byte.to_N y) = 7
    ∧ setitem (VObj 2) 1 (VInt 7) (<[5%positive := OMemoryView 2 true 0 4]> h_sample)
      = (Ok (), h')
    ∧ _is_immutable (VObj 5) h' = (Ok true, h')
    ∧ contents h' 5 = Some (<[(Z.to_nat 1 - 0)%nat := y]> (take 4 (drop 0 bytes_10_40))).
Proof.
  destruct (readonly_view_not_frozen
              (<[5%positive := OMemoryView 2 true 0 4]> h_sample) 5 2 0 4
              bytes_10_40 1 7) as (y & h' & Hy & E & _ & Hi & _ & Hc).
  - vm_compute. reflexivity.
  - vm_compute. reflexivity.
  - vm_compute. lia.
  - vm_compute. split; [discriminate | reflexivity].
  - lia.
  - exists y, h'. split; [exact Hy |]. split; [exact E |].
    split; [exact Hi | exact Hc].
Defined.

(** * The Python 2 definitions *)

Lemma scan_str_chunks (chunks : list (list byte)) :
  py2compat.scan_str (py2compat.PStr <$> chunks) = inl (concat chunks).
Proof.
  induction chunks as [| c chunks IH]; [done |].
  rewrite fmap_cons. simpl. by rewrite IH.
Qed.

Lemma scan_str_chars (bs : list byte) :
  py2compat.scan_str ((λ x, py2compat.PStr [x]) <$> bs) = inl bs.
Proof.
  induction bs as [| x bs IH]; [done |].
  rewrite fmap_cons. simpl. by rewrite IH.
Qed.



(** X22: on Python 2, [tobytes] concatenates.  A list of byte strings
    becomes their concatenation (the empty list the empty string), a byte
    string comes back equal to itself, and so [tostr(tobytes(s))] is [s] for
    every byte string [s]. *)
Theorem py2_tobytes_concat (chunks : list (list byte)) (bs : list byte) :
  py2compat.tobytes (py2compat.PList (py2compat.PStr <$> chunks))
  = py2compat.Done (py2compat.PStr (concat chunks))
  ∧ py2compat.tobytes (py2compat.PStr bs) = py2compat.Done (py2compat.PStr bs)
  ∧ py2compat.tostr (py2compat.PStr bs) = py2compat.Done (py2compat.PStr bs).
Proof.
  split; [| split; [| done]].
  - unfold py2compat.tobytes, py2compat.py_join. simpl.
    by rewrite scan_str_chunks.
  - unfold py2compat.tobytes, py2compat.py_join. simpl.
    by rewrite scan_str_chars.
Qed.

(** X23: on Python 2, [tobytes] of a [unicode] is the Latin-1 encoding: it
    raises [UnicodeEncodeError] exactly when a code point is above 255, and
    otherwise returns a byte string with one byte per code point, of the
    same value. *)
Theorem py2_tobytes_unicode (u : list N) :
  (py2compat.tobytes (py2compat.PUnicode u)
   = py2compat.Throw py2compat.PUnicodeEncodeError
   ↔ Exists (λ c, (255 < c)%N) u)
  ∧ (Forall (λ c, (c ≤ 255)%N) u →
     ∃ bs : list byte,
       py2compat.tobytes (py2compat.PUnicode u) = py2compat.Done (py2compat.PStr bs)
       ∧ Forall2 (λ c x, Byte.to_N x = c) u bs).
Proof.
  unfold py2compat.tobytes, py2compat.py_encode_latin1. split.
  - rewrite <- latin1_encode_None. by destruct (latin1_encode u).
  - intros Hu. destruct (latin1_encode_total u Hu) as [bs Hbs].
    exists bs. rewrite Hbs. split; [done | by apply latin1_encode_Some].
Qed.

Lemma py2_tobytes_unicode_witness :
  ∃ bs : list byte,
    py2compat.tobytes (py2compat.PUnicode str_ABC)
    = py2compat.Done (py2compat.PStr bs)
    ∧ Forall2 (λ c x, Byte.to_N x = c) str_ABC bs.
Proof.
  apply (py2_tobytes_unicode str_ABC). repeat constructor; by vm_compute.
Defined.

Lemma scan_str_inl (xs : list py2compat.pyvalue) (bs : list byte) :
  py2compat.scan_str xs = inl bs →
  Forall (λ v, py2compat.byte_string v = true) xs.
Proof.
  revert bs. induction xs as [| v xs IH]; intros bs E; [constructor |].
  destruct v as [| | c | |]; try done. simpl in E.
  destruct (py2compat.scan_str xs) as [rest |] eqn:Er; [| done].
  constructor; [done | by eapply IH].
Qed.

Lemma scan_str_inr (xs : list py2compat.pyvalue) (v : py2compat.pyvalue) :
  py2compat.scan_str xs = inr v →
  py2compat.byte_string v = false ∧ Exists (λ w, py2compat.byte_string w = false) xs.
Proof.
  induction xs as [| w xs IH]; [done |].
  destruct w as [| | c | |]; simpl; intros E; simplify_eq;
    try (split; [done | by apply Exists_cons_hd]).
  destruct (py2compat.scan_str xs) as [rest |] eqn:Er; [done |].
  simplify_eq. destruct IH as [Hv Hex]; [done |].
  split; [done | by apply Exists_cons_tl].
Qed.

(** X24: on Python 2, [tobytes] of a list returns a byte string only if
    every item is a byte string.  As soon as one item is something else,
    the call raises or, when [unicode] items make the join a text join,
    returns a [unicode]. *)
Theorem py2_tobytes_result_class (xs : list py2compat.pyvalue)
    (r : py2compat.pyvalue) :
  py2compat.tobytes (py2compat.PList xs) = py2compat.Done r →
  (py2compat.byte_string r = true
   ↔ Forall (λ v, py2compat.byte_string v = true) xs)
  ∧ (py2compat.byte_string r = false → ∃ u : list N, r = py2compat.PUnicode u).
Proof.
  unfold py2compat.tobytes, py2compat.py_join. simpl.
  destruct (py2compat.scan_str xs) as [bs | v] eqn:E.
  - intros [= <-]. split; [| done].
    split; [intros _; by eapply scan_str_inl | done].
  - apply scan_str_inr in E as [Hv Hex].
    destruct v as [| | | u |]; try done.
    destruct (py2compat.join_unicode xs) as [w |]; [| done].
    intros [= <-]. split; [| by eexists].
    split; [done |]. intros Hall. exfalso.
    apply Exists_exists in Hex as (w' & Hin & Hw').
    rewrite Forall_forall in Hall. specialize (Hall _ Hin). congruence.
Qed.

Lemma py2_tobytes_result_class_witness :
  py2compat.tobytes
    (py2compat.PList [py2compat.PStr [x61]; py2compat.PUnicode [233]%N])
  = py2compat.Done (py2compat.PUnicode [97; 233]%N)
  ∧ ¬ Forall (λ v, py2compat.byte_string v = true)
        [py2compat.PStr [x61]; py2compat.PUnicode [233]%N].
Proof.
  assert (py2compat.tobytes
            (py2compat.PList [py2compat.PStr [x61]; py2compat.PUnicode [233]%N])
          = py2compat.Done (py2compat.PUnicode [97; 233]%N)) as E
    by (vm_compute; reflexivity).
  split; [exact E |].
  destruct (py2_tobytes_result_class _ _ E) as [Hiff _].
  intros Hall. apply Hiff in Hall. discriminate Hall.
Defined.
